(** * editortext.py: Persian text normalisation and its batch driver

    A shallow embedding of [src/uneditbooktext/editortext.py].

    - Python [str] values are lists of Unicode code points ([Z]).
    - [re.sub] with a character-class pattern is modelled by two scanners:
      one for a single class ([re_sub_each]) and one for a class followed by
      [+] ([re_sub_runs]), both left to right like the regex engine.
    - The Stanza pipeline, the Unicode alphanumeric table behind [\w] and
      [difflib.ndiff] are external to the repository; they are parameters
      of the development (class [Platform]); the machine's failures are
      the fields of class [Host].
    - File-system effects are threaded through an exception/state monad
      over a [World] that logs every system call it performs. *)

From Stdlib Require Import ZArith List Bool Lia String Ascii DecimalString Sorted.
From stdpp Require Import base option list gmap.

Import ListNotations.
Local Open Scope Z_scope.
Local Open Scope list_scope.

(** ** Text *)

Module Text.

(** A Python [str]: a sequence of code points. *)
Definition str := list Z.

(** ASCII literal of the source as a [str]. *)
Definition lit (s : string) : str :=
  List.map (fun a => Z.of_N (N_of_ascii a)) (list_ascii_of_string s).

Definition SPACE : Z := 32.
Definition HYPHEN : Z := 45.
Definition PERIOD : Z := 46.
Definition COLON : Z := 58.
Definition UNDERSCORE : Z := 95.
Definition PERSIAN_COMMA : Z := 0x60C.
Definition TATWEEL : Z := 0x640.
Definition LF : Z := 10.
Definition CR : Z := 13.

(** [Py_UNICODE_ISSPACE]: the table shared by [str.isspace], [str.strip]
    with no argument and the regex class [\s] on [str] patterns. *)
Definition is_space (c : Z) : bool :=
  ((9 <=? c) && (c <=? 13)) || ((28 <=? c) && (c <=? 32))
  || (c =? 0x85) || (c =? 0xA0) || (c =? 0x1680)
  || ((0x2000 <=? c) && (c <=? 0x200A))
  || (c =? 0x2028) || (c =? 0x2029) || (c =? 0x202F)
  || (c =? 0x205F) || (c =? 0x3000).

Definition nonspace (c : Z) : bool := negb (is_space c).

(** Line boundaries of [str.splitlines]. *)
Definition is_linebreak (c : Z) : bool :=
  ((10 <=? c) && (c <=? 13)) || ((28 <=? c) && (c <=? 30))
  || (c =? 0x85) || (c =? 0x2028) || (c =? 0x2029).

(** [re.sub(cls, repl, s)] for a pattern that is one character class:
    every matching character is replaced by [repl]. *)
Fixpoint re_sub_each (cls : Z -> bool) (repl s : str) : str :=
  match s with
  | [] => []
  | c :: s' =>
      if cls c then repl ++ re_sub_each cls repl s'
      else c :: re_sub_each cls repl s'
  end.

(** [re.sub(cls+, repl, s)]: every maximal run of matching characters is
    replaced by one [repl].  [inrun] tells that the previous character
    belonged to the run being consumed. *)
Fixpoint re_sub_runs_from (cls : Z -> bool) (repl : str) (inrun : bool)
    (s : str) : str :=
  match s with
  | [] => []
  | c :: s' =>
      if cls c then
        (if inrun then [] else repl) ++ re_sub_runs_from cls repl true s'
      else c :: re_sub_runs_from cls repl false s'
  end.

Definition re_sub_runs (cls : Z -> bool) (repl s : str) : str :=
  re_sub_runs_from cls repl false s.

(** [sep.join(parts)] *)
Fixpoint join (sep : str) (parts : list str) : str :=
  match parts with
  | [] => []
  | [p] => p
  | p :: ps => p ++ sep ++ join sep ps
  end.

Fixpoint lstrip (s : str) : str :=
  match s with
  | [] => []
  | c :: s' => if is_space c then lstrip s' else s
  end.

Definition rstrip (s : str) : str := rev (lstrip (rev s)).

(** [s.strip()] *)
Definition strip (s : str) : str := rstrip (lstrip s).

Fixpoint startswith (p s : str) : bool :=
  match p, s with
  | [], _ => true
  | _ :: _, [] => false
  | a :: p', b :: s' => (a =? b) && startswith p' s'
  end.

Definition endswith (suffix s : str) : bool :=
  startswith (rev suffix) (rev s).

(** [s.splitlines()]: [cur] is the line being read, in reverse.  A line
    break closes the current line; [\r\n] counts as one break; no empty
    line is produced after a final break. *)
Fixpoint splitlines_from (cur : str) (s : str) : list str :=
  match s with
  | [] => match cur with [] => [] | _ => [rev cur] end
  | c :: s' =>
      if is_linebreak c then
        rev cur ::
          match s' with
          | d :: s'' =>
              if (c =? CR) && (d =? LF) then splitlines_from [] s''
              else splitlines_from [] s'
          | [] => []
          end
      else splitlines_from (c :: cur) s'
  end.

Definition splitlines (s : str) : list str := splitlines_from [] s.

End Text.

(** ** External capabilities *)

(** What the script takes from its environment: the Unicode table behind
    [str.isalnum] (hence the regex class [\w]), the Stanza pipeline and
    [difflib.ndiff].  A Stanza document is a list of sentences, each a
    list of token texts; [None] stands for an exception raised by the
    pipeline call.  [pipeline_ready] tells whether the module-level
    [stanza.download] / [stanza.Pipeline] calls succeed. *)
Class Platform := {
  isalnum : Z -> bool;
  pipeline_ready : bool;
  nlp : Text.str -> option (list (list Text.str));
  ndiff : list Text.str -> list Text.str -> list Text.str
}.

(** ** The Normalizer *)

Module Normalizer.
Import Text.

Section Defs.
Context {P : Platform}.

(** The regex class [\w]. *)
Definition is_word (c : Z) : bool := isalnum c || (c =? UNDERSCORE).

(** The class [[ـ\-_]] of the first substitution. *)
Definition special (c : Z) : bool :=
  (c =? TATWEEL) || (c =? HYPHEN) || (c =? UNDERSCORE).

(** The class [[\w\s\.\،:]], negated in the second substitution. *)
Definition allowed (c : Z) : bool :=
  is_word c || is_space c || (c =? PERIOD) || (c =? PERSIAN_COMMA)
  || (c =? COLON).

(** Lines 29, 32 and 35: the three substitutions and the final strip. *)
Definition clean_joined (tokenized_text : str) : str :=
  let text_no_special := re_sub_runs special [] tokenized_text in
  let cleaned_text :=
    re_sub_each (fun c => negb (allowed c)) [] text_no_special in
  strip (re_sub_runs is_space [SPACE] cleaned_text).

(** Lines 22-26: the tokens of every sentence, in order, joined by one
    space. *)
Definition tokens_of (doc : list (list str)) : list str := concat doc.

Definition normalize (tokens : list str) : str :=
  clean_joined (join [SPACE] tokens).

Definition clean_persian_text (text : str) : option str :=
  match nlp text with
  | None => None
  | Some doc => Some (normalize (tokens_of doc))
  end.

(** Checkers for the shape of a cleaned text. *)
Fixpoint no_adjacent_from (prev : bool) (s : str) : bool :=
  match s with
  | [] => true
  | c :: s' => negb (prev && is_space c) && no_adjacent_from (is_space c) s'
  end.

Definition no_adjacent_space (s : str) : bool := no_adjacent_from false s.

Definition char_ok (c : Z) : bool := negb (special c) && allowed c.

Definition space_is_ascii (c : Z) : bool := negb (is_space c) || (c =? SPACE).

Definition edge_ok (s : str) : bool :=
  match s with
  | [] => true
  | c :: _ => negb (is_space c)
  end.

(** The CleanedText invariant as a decidable check. *)
Definition cleaned_text_ok (s : str) : bool :=
  forallb char_ok s && forallb space_is_ascii s && no_adjacent_space s
  && edge_ok s && edge_ok (rev s).

End Defs.
End Normalizer.

(** ** The host: file system, console and failures *)

Module IO.
Import Text.

(** Python exceptions that the script can meet, each with the text that
    [str(e)] prints.  All are subclasses of [Exception]. *)
Inductive exn :=
| OSError (msg : str)
| UnicodeDecodeError (msg : str)
| PipelineError (msg : str).

(** [str(e)] *)
Definition exn_str (e : exn) : str :=
  match e with
  | OSError msg | UnicodeDecodeError msg | PipelineError msg => msg
  end.

Inductive result (A : Type) :=
| Ret (a : A)
| Raise (e : exn).
Arguments Ret {A} a.
Arguments Raise {A} e.

(** What the operating system does with a [with open(p, "w")] block:
    complete it, fail in [open] (nothing touched), or fail after the file
    was truncated and [written] characters reached it. *)
Inductive write_outcome :=
| WriteDone
| OpenRaises (e : exn)
| WriteRaises (written : nat) (e : exn).

(** System calls, as logged by the model. *)
Inductive event :=
| EvRead (path : str) (ok : bool)
| EvWrite (path content : str) (ok : bool)
| EvRemove (path : str) (ok : bool)
| EvMakedirs (path : str) (ok : bool)
| EvListdir (path : str).

Record World := mkWorld {
  files : gmap (list Z) (list Z);
  dirs : gset (list Z);
  console : list str;
  syslog : list event
}.

(** The behaviour of the machine the script runs on. *)
Class Host := {
  project_root : str;
  read_fault : str -> option exn;
  write_fault : str -> write_outcome;
  remove_fault : str -> option exn;
  makedirs_fault : str -> option exn
}.

Definition M (A : Type) : Type := World -> result A * World.

Definition ret {A} (a : A) : M A := fun w => (Ret a, w).
Definition raise {A} (e : exn) : M A := fun w => (Raise e, w).

Definition bind {A B} (m : M A) (k : A -> M B) : M B :=
  fun w =>
    match m w with
    | (Ret a, w') => k a w'
    | (Raise e, w') => (Raise e, w')
    end.

(** [try: m except Exception as e: h e] *)
Definition try_except {A} (m : M A) (h : exn -> M A) : M A :=
  fun w =>
    match m w with
    | (Ret a, w') => (Ret a, w')
    | (Raise e, w') => h e w'
    end.

Notation "'let!' x ':=' m 'in' k" := (bind m (fun x => k))
  (at level 10, x name, m at level 100, k at level 200).
Notation "'do!' m 'in' k" := (bind m (fun _ => k))
  (at level 10, m at level 100, k at level 200).

Definition set_files (f : gmap (list Z) (list Z)) (w : World) : World :=
  mkWorld f (dirs w) (console w) (syslog w).
Definition add_dir (d : str) (w : World) : World :=
  mkWorld (files w) ({[d]} ∪ dirs w) (console w) (syslog w).
Definition log (e : event) (w : World) : World :=
  mkWorld (files w) (dirs w) (console w) (syslog w ++ [e]).

Definition put_lines (lines : list str) (w : World) : World :=
  mkWorld (files w) (dirs w) (console w ++ lines) (syslog w).

(** [print(line)] *)
Definition print (line : str) : M unit :=
  fun w => (Ret tt, put_lines [line] w).

Definition no_such_file (path : str) : exn :=
  OSError (lit "[Errno 2] No such file or directory: '" ++ path ++ lit "'").

Section Syscalls.
Context {H : Host}.

(** [with open(path, "r", encoding="utf-8") as f: f.read()] *)
Definition read_file (path : str) : M str :=
  fun w =>
    match read_fault path with
    | Some e => (Raise e, log (EvRead path false) w)
    | None =>
        match files w !! path with
        | Some text => (Ret text, log (EvRead path true) w)
        | None => (Raise (no_such_file path), log (EvRead path false) w)
        end
    end.

(** [with open(path, "w", encoding="utf-8") as f: f.write(content)] *)
Definition write_file (path content : str) : M unit :=
  fun w =>
    match write_fault path with
    | WriteDone =>
        (Ret tt, log (EvWrite path content true)
                   (set_files (<[path := content]> (files w)) w))
    | OpenRaises e => (Raise e, log (EvWrite path content false) w)
    | WriteRaises n e =>
        (Raise e, log (EvWrite path content false)
                    (set_files (<[path := take n content]> (files w)) w))
    end.

(** [os.remove(path)] *)
Definition os_remove (path : str) : M unit :=
  fun w =>
    match remove_fault path with
    | Some e => (Raise e, log (EvRemove path false) w)
    | None =>
        match files w !! path with
        | Some _ =>
            (Ret tt, log (EvRemove path true)
                       (set_files (delete path (files w)) w))
        | None => (Raise (no_such_file path), log (EvRemove path false) w)
        end
    end.

(** [os.path.exists(path)] *)
Definition os_path_exists (path : str) : M bool :=
  fun w => (Ret (bool_decide (is_Some (files w !! path))
                 || bool_decide (path ∈ dirs w)), w).

(** [os.makedirs(path)] *)
Definition os_makedirs (path : str) : M unit :=
  fun w =>
    match makedirs_fault path with
    | Some e => (Raise e, log (EvMakedirs path false) w)
    | None => (Ret tt, log (EvMakedirs path true) (add_dir path w))
    end.

End Syscalls.

Definition SLASH : Z := 47.

(** [os.path.join(a, b)] (posixpath) *)
Definition os_path_join (a b : str) : str :=
  if startswith [SLASH] b then b
  else if (match a with [] => true | _ => false end) || endswith [SLASH] a
       then a ++ b
       else a ++ [SLASH] ++ b.

Fixpoint take_until_slash (s : str) : str :=
  match s with
  | [] => []
  | c :: s' => if c =? SLASH then [] else c :: take_until_slash s'
  end.

(** [os.path.basename(path)]: what follows the last slash. *)
Definition os_path_basename (path : str) : str :=
  rev (take_until_slash (rev path)).

(** The entry name of [path] when it lies directly inside [dir]. *)
Definition entry_in (dir path : str) : option str :=
  let prefix := if endswith [SLASH] dir then dir else dir ++ [SLASH] in
  if startswith prefix path then
    let name := drop (length prefix) path in
    match name with
    | [] => None
    | _ => if forallb (fun c => negb (c =? SLASH)) name then Some name
           else None
    end
  else None.

(** The files and directories directly inside [dir], in the order the
    file system happens to give them. *)
Definition dir_entries (dir : str) (w : World) : list str :=
  omap (entry_in dir) (map_to_list (files w)).*1
  ++ omap (entry_in dir) (elements (dirs w)).

(** [os.listdir(dir)] *)
Definition os_listdir (dir : str) : M (list str) :=
  fun w => (Ret (dir_entries dir w), log (EvListdir dir) w).

End IO.

(** ** The script *)

Module Script.
Import Text IO.

Section Defs.
Context {P : Platform} {H : Host}.

(** [nlp(text)] and the two loops over sentences and tokens; an error of
    the pipeline propagates. *)
Definition clean_persian_text (text : str) : M str :=
  match Normalizer.clean_persian_text text with
  | Some cleaned_text => ret cleaned_text
  | None => raise (PipelineError (lit "tokenizer failed"))
  end.

(** [enumerate(l, start)] *)
Fixpoint enumerate {A} (start : nat) (l : list A) : list (nat * A) :=
  match l with
  | [] => []
  | x :: l' => (start, x) :: enumerate (S start) l'
  end.

Definition str_of_nat (n : nat) : str :=
  lit (NilEmpty.string_of_uint (Nat.to_uint n)).

Definition is_marker (line : str) : bool :=
  startswith (lit "- ") line || startswith (lit "+ ") line.

(** f"Line {i}: {line}" *)
Definition diff_message (i : nat) (line : str) : str :=
  lit "Line " ++ str_of_nat i ++ lit ": " ++ line.

(** Lines 51-53: the loop over the numbered diff. *)
Fixpoint report_loop (entries : list (nat * str)) : M unit :=
  match entries with
  | [] => ret tt
  | (i, line) :: rest =>
      do! (if is_marker line then print (diff_message i line) else ret tt)
      in report_loop rest
  end.

(** The diff that [show_differences] walks through. *)
Definition diff_of (original_text cleaned_text : str) : list str :=
  let original_lines := splitlines original_text in
  let cleaned_lines := splitlines cleaned_text in
  let cleaned_lines :=
    match cleaned_lines with
    | [] => [cleaned_text]
    | _ => cleaned_lines
    end in
  ndiff original_lines cleaned_lines.

Definition show_differences (original_text cleaned_text : str) : M unit :=
  let diff := diff_of original_text cleaned_text in
  do! print (lit "Differences between original and cleaned text:") in
  report_loop (enumerate 1 diff).

Definition separator : str := [LF] ++ repeat HYPHEN 50 ++ [LF].

(** f"Error reading file {input_path}: {e}" *)
Definition read_error_message (input_path : str) (e : exn) : str :=
  lit "Error reading file " ++ input_path ++ lit ": " ++ exn_str e.

(** f"File '{os.path.basename(input_path)}' processed and saved as
    '{output_path}'" *)
Definition processed_message (input_path output_path : str) : str :=
  lit "File '" ++ os_path_basename input_path
  ++ lit "' processed and saved as '" ++ output_path ++ lit "'".

(** The [try] block returns the text read; its [except] branch prints and
    makes the function return [False]. *)
Definition process_file (input_path output_path : str) : M bool :=
  let! r :=
    try_except
      (let! original_text := read_file input_path in ret (Some original_text))
      (fun e =>
         do! print (read_error_message input_path e) in
         ret None) in
  match r with
  | None => ret false
  | Some original_text =>
      let! cleaned_text := clean_persian_text original_text in
      do! write_file output_path cleaned_text in
      do! print (processed_message input_path output_path) in
      do! show_differences original_text cleaned_text in
      do! print separator in
      ret true
  end.

Definition input_folder : str := project_root.
Definition output_folder : str :=
  os_path_join project_root (lit "editedbooktext").
Definition processed_list_file : str :=
  os_path_join project_root (lit "editedbook_list.txt").

Definition input_path_of (filename : str) : str :=
  os_path_join input_folder filename.
Definition output_path_of (filename : str) : str :=
  os_path_join output_folder (lit "edited_" ++ filename).

(** f"Original file '{filename}' deleted." *)
Definition deleted_message (filename : str) : str :=
  lit "Original file '" ++ filename ++ lit "' deleted.".

(** f"Error deleting file {filename}: {e}" *)
Definition delete_error_message (filename : str) (e : exn) : str :=
  lit "Error deleting file " ++ filename ++ lit ": " ++ exn_str e.

(** Lines 94-106: one turn of the loop over the directory entries. *)
Definition loop_body (filename : str) (processed_files : list str)
    : M (list str) :=
  if endswith (lit ".txt") filename then
    let input_path := input_path_of filename in
    let output_path := output_path_of filename in
    let! success := process_file input_path output_path in
    if success : bool then
      let processed_files := processed_files ++ [filename] in
      do! try_except
            (do! os_remove input_path in
             print (deleted_message filename))
            (fun e => print (delete_error_message filename e)) in
      ret processed_files
    else ret processed_files
  else ret processed_files.

Fixpoint main_loop (names : list str) (processed_files : list str)
    : M (list str) :=
  match names with
  | [] => ret processed_files
  | filename :: rest =>
      let! processed_files := loop_body filename processed_files in
      main_loop rest processed_files
  end.

(** The text written to the list file: [fname + "\n"] for each name. *)
Definition manifest_text (processed_files : list str) : str :=
  concat (List.map (fun fname => fname ++ [LF]) processed_files).

Definition list_saved_message : str :=
  lit "List of processed files saved in '" ++ processed_list_file ++ lit "'.".

Definition no_files_message : str := lit "No files were processed.".

(** Lines 109-115. *)
Definition save_list (processed_files : list str) : M unit :=
  match processed_files with
  | _ :: _ =>
      do! write_file processed_list_file (manifest_text processed_files) in
      print list_saved_message
  | [] => print no_files_message
  end.

Definition main : M unit :=
  let! present := os_path_exists output_folder in
  do! (if negb present then os_makedirs output_folder else ret tt) in
  let! names := os_listdir input_folder in
  let! processed_files := main_loop names [] in
  save_list processed_files.

(** Running the module: lines 7 and 10, then [main()]. *)
Definition script : M unit :=
  if pipeline_ready then main
  else raise (PipelineError (lit "resource unavailable")).

(** *** Vocabulary for the claims about a run *)

(** In a sequence of system calls, every attempt to remove a file comes
    after a completed write of the output that belongs to it. *)
Definition deletes_follow_writes (tr : list event) : Prop :=
  forall before path ok after,
    tr = before ++ EvRemove path ok :: after ->
    exists filename cleaned_text,
      path = input_path_of filename /\
      In (EvWrite (output_path_of filename) cleaned_text true) before.

Definition is_write_to (path : str) (e : event) : bool :=
  match e with
  | EvWrite p _ _ => bool_decide (p = path)
  | _ => false
  end.

(** How many times [path] was opened for writing. *)
Definition writes_to (path : str) (tr : list event) : nat :=
  length (List.filter (is_write_to path) tr).

(** A file counts as processed successfully when its output was written. *)
Definition some_file_processed (tr : list event) : Prop :=
  exists filename cleaned_text,
    In (EvWrite (output_path_of filename) cleaned_text true) tr.

(** The entries of the diff that [show_differences] prints, with the
    number each is printed under. *)
Definition printed_entries (diff : list str) : list (nat * str) :=
  List.filter (fun e => is_marker (snd e)) (enumerate 1 diff).

Definition diff_header : str :=
  lit "Differences between original and cleaned text:".

(** Everything [show_differences] prints. *)
Definition report_lines (original_text cleaned_text : str) : list str :=
  diff_header ::
  List.map (fun e => diff_message (fst e) (snd e))
    (printed_entries (diff_of original_text cleaned_text)).

(** The system calls one turn of the loop can make. *)
Definition loop_event (e : event) : Prop :=
  match e with
  | EvRead path _ | EvRemove path _ => exists filename, path = input_path_of filename
  | EvWrite path _ _ => exists filename, path = output_path_of filename
  | _ => False
  end.

Definition is_remove (e : event) : bool :=
  match e with
  | EvRemove _ _ => true
  | _ => false
  end.

End Defs.
End Script.

(** ** Sample platforms, hosts and worlds

    Small stand-ins for the external capabilities, used to run the script
    on concrete inputs. *)

Module Demo.
Import Text IO.

(** An excerpt of the Unicode alphanumeric table: ASCII letters and
    digits, and the letters and digits of the Arabic block (tatweel,
    U+0640, is a letter of category Lm). *)
Definition sample_isalnum (c : Z) : bool :=
  ((48 <=? c) && (c <=? 57)) || ((65 <=? c) && (c <=? 90))
  || ((97 <=? c) && (c <=? 122))
  || ((0x620 <=? c) && (c <=? 0x64A)) || ((0x660 <=? c) && (c <=? 0x669))
  || ((0x66E <=? c) && (c <=? 0x6D3)) || ((0x6F0 <=? c) && (c <=? 0x6FC)).

(** [text.split()]: [cur] is the word being read, in reverse. *)
Fixpoint split_from (cur : str) (s : str) : list str :=
  match s with
  | [] => match cur with [] => [] | _ => [rev cur] end
  | c :: s' =>
      if is_space c then
        match cur with
        | [] => split_from [] s'
        | _ => rev cur :: split_from [] s'
        end
      else split_from (c :: cur) s'
  end.

(** A tokenizer that splits on whitespace and returns one sentence. *)
Definition whitespace_nlp (text : str) : option (list (list str)) :=
  match split_from [] text with
  | [] => Some []
  | tokens => Some [tokens]
  end.

(** Detach a final period from a word, as a language-aware tokenizer
    does with sentence punctuation. *)
Definition detach_period (word : str) : list str :=
  match rev word with
  | c :: d :: r => if c =? PERIOD then [rev (d :: r); [PERIOD]] else [word]
  | _ => [word]
  end.

Definition punctuation_nlp (text : str) : option (list (list str)) :=
  match split_from [] text with
  | [] => Some []
  | words => Some [concat (List.map detach_period words)]
  end.

(** A line diff without look-ahead: the common prefix, then the rest of
    the first list as deletions and the rest of the second as
    insertions. *)
Fixpoint prefix_diff (a b : list str) : list str :=
  match a, b with
  | x :: a', y :: b' =>
      if bool_decide (x = y) then (lit "  " ++ x) :: prefix_diff a' b'
      else List.map (fun l => lit "- " ++ l) a
           ++ List.map (fun l => lit "+ " ++ l) b
  | _, _ => List.map (fun l => lit "- " ++ l) a
            ++ List.map (fun l => lit "+ " ++ l) b
  end.

Definition sample_platform : Platform :=
  {| isalnum := sample_isalnum;
     pipeline_ready := true;
     nlp := whitespace_nlp;
     ndiff := prefix_diff |}.

Definition punctuation_platform : Platform :=
  {| isalnum := sample_isalnum;
     pipeline_ready := true;
     nlp := punctuation_nlp;
     ndiff := prefix_diff |}.

Definition text_a : str := lit "one -  two_three.".
Definition text_b : str := lit "x: y".

(** A tokenizer that stops answering on one text. *)
Definition fragile_nlp (text : str) : option (list (list str)) :=
  if bool_decide (text = text_a) then None else whitespace_nlp text.

Definition fragile_platform : Platform :=
  {| isalnum := sample_isalnum;
     pipeline_ready := true;
     nlp := fragile_nlp;
     ndiff := prefix_diff |}.

Definition a_txt : str := lit "/books/a.txt".
Definition b_txt : str := lit "/books/b.txt".
Definition edited_a_txt : str := lit "/books/editedbooktext/edited_a.txt".
Definition edited_b_txt : str := lit "/books/editedbooktext/edited_b.txt".

(** A machine on which every call succeeds. *)
Definition calm_host : Host :=
  {| project_root := lit "/books";
     read_fault := fun _ => None;
     write_fault := fun _ => WriteDone;
     remove_fault := fun _ => None;
     makedirs_fault := fun _ => None |}.

Definition disk_full : exn := OSError (lit "[Errno 28] No space left on device").
Definition denied : exn := OSError (lit "[Errno 13] Permission denied").

(** The output of [b.txt] cannot be opened for writing. *)
Definition full_disk_host : Host :=
  {| project_root := lit "/books";
     read_fault := fun _ => None;
     write_fault := fun p =>
       if bool_decide (p = edited_b_txt) then OpenRaises disk_full
       else WriteDone;
     remove_fault := fun _ => None;
     makedirs_fault := fun _ => None |}.

(** The output of [a.txt], the second book in listing order, cannot be
    opened for writing. *)
Definition late_full_disk_host : Host :=
  {| project_root := lit "/books";
     read_fault := fun _ => None;
     write_fault := fun p =>
       if bool_decide (p = edited_a_txt) then OpenRaises disk_full
       else WriteDone;
     remove_fault := fun _ => None;
     makedirs_fault := fun _ => None |}.

(** [a.txt] cannot be removed. *)
Definition sticky_host : Host :=
  {| project_root := lit "/books";
     read_fault := fun _ => None;
     write_fault := fun _ => WriteDone;
     remove_fault := fun p =>
       if bool_decide (p = a_txt) then Some denied else None;
     makedirs_fault := fun _ => None |}.

(** [a.txt] cannot be read. *)
Definition unreadable_host : Host :=
  {| project_root := lit "/books";
     read_fault := fun p =>
       if bool_decide (p = a_txt) then Some denied else None;
     write_fault := fun _ => WriteDone;
     remove_fault := fun _ => None;
     makedirs_fault := fun _ => None |}.

(** Two books in the input folder, nothing else. *)
Definition two_books : World :=
  {| files := <[a_txt := text_a]> (<[b_txt := text_b]> ∅);
     dirs := {[ lit "/books" ]};
     console := [];
     syslog := [] |}.

(** An input folder without any [.txt] entry. *)
Definition no_books : World :=
  {| files := <[lit "/books/notes.md" := lit "to do"]> ∅;
     dirs := {[ lit "/books"; lit "/books/editedbooktext" ]};
     console := [];
     syslog := [] |}.

(** The input folder after an earlier run: the books are gone, the list
    file is there. *)
Definition after_a_run : World :=
  {| files := <[lit "/books/editedbook_list.txt" := lit "b.txt" ++ [LF]]> ∅;
     dirs := {[ lit "/books"; lit "/books/editedbooktext" ]};
     console := [];
     syslog := [] |}.

(** The spec's sample inputs, as code points. *)
Definition salam_donya : str :=
  [0x633; 0x644; 0x627; 0x645; 95; 0x62F; 0x646; 0x6CC; 0x627; 32; 45; 32;
   0x62E; 0x648; 0x628; 0x6CC; 0x61F].
Definition salam_donya_clean : str :=
  [0x633; 0x644; 0x627; 0x645; 0x62F; 0x646; 0x6CC; 0x627; 32;
   0x62E; 0x648; 0x628; 0x6CC].
Definition amuzesh_tatweel : str :=
  [0x622; 0x645; 0x640; 0x640; 0x640; 0x648; 0x632; 0x634].
Definition two_lines : str :=
  [0x62E; 0x637; 32; 0x627; 0x648; 0x644; 10; 0x62E; 0x637; 32; 0x62F;
   0x648; 0x645].

(** Two common lines, then one line that differs. *)
Definition three_lines : list str := [lit "a"; lit "b"; lit "c-d"].
Definition three_lines_cleaned : list str := [lit "a"; lit "b"; lit "cd"].

End Demo.

(** * Properties *)

(** ** Scanners and strip *)

Section TextFacts.
Import Text Normalizer.

Lemma re_sub_runs_from_nil cls b s :
  re_sub_runs_from cls [] b s = List.filter (fun c => negb (cls c)) s.
Proof.
  revert b; induction s as [|c s IH]; intros b; simpl; [reflexivity|].
  destruct (cls c); simpl.
  - destruct b; simpl; apply IH.
  - f_equal; apply IH.
Qed.

Lemma re_sub_each_nil cls s :
  re_sub_each cls [] s = List.filter (fun c => negb (cls c)) s.
Proof.
  induction s as [|c s IH]; simpl; [reflexivity|].
  destruct (cls c); simpl; [apply IH | f_equal; apply IH].
Qed.

Lemma lstrip_decomp s :
  exists pre, s = pre ++ lstrip s /\ forallb is_space pre = true.
Proof.
  induction s as [|c s [pre [E F]]]; simpl.
  - exists []; split; reflexivity.
  - destruct (is_space c) eqn:Hc.
    + exists (c :: pre); simpl; rewrite Hc, F; split; [congruence|reflexivity].
    + exists []; split; reflexivity.
Qed.

Lemma lstrip_edge s : edge_ok (lstrip s) = true.
Proof.
  induction s as [|c s IH]; simpl; [reflexivity|].
  destruct (is_space c) eqn:Hc; [exact IH|]. simpl; rewrite Hc; reflexivity.
Qed.

Lemma lstrip_fixed s : edge_ok s = true -> lstrip s = s.
Proof.
  destruct s as [|c s]; simpl; [reflexivity|].
  destruct (is_space c); [discriminate|reflexivity].
Qed.

Lemma rstrip_decomp s :
  exists suf, s = rstrip s ++ suf /\ forallb is_space suf = true.
Proof.
  destruct (lstrip_decomp (rev s)) as [pre [E F]].
  exists (rev pre); split.
  - unfold rstrip. rewrite <- rev_app_distr, <- E, rev_involutive. reflexivity.
  - rewrite forallb_forall in *. intros x Hx. apply F, in_rev, Hx.
Qed.

Lemma rstrip_edge s : edge_ok (rev (rstrip s)) = true.
Proof. unfold rstrip. rewrite rev_involutive. apply lstrip_edge. Qed.

Lemma rstrip_fixed s : edge_ok (rev s) = true -> rstrip s = s.
Proof.
  intros E. unfold rstrip. rewrite (lstrip_fixed _ E). apply rev_involutive.
Qed.

(** [rstrip] never eats a first character that is not white space. *)
Lemma rstrip_keeps_head s : edge_ok s = true -> edge_ok (rstrip s) = true.
Proof.
  intros E. destruct (rstrip_decomp s) as [suf [D F]].
  destruct (rstrip s) as [|c r] eqn:R; [reflexivity|].
  rewrite D in E. exact E.
Qed.

Lemma strip_decomp s : exists pre suf, s = pre ++ strip s ++ suf.
Proof.
  destruct (lstrip_decomp s) as [pre [E _]].
  destruct (rstrip_decomp (lstrip s)) as [suf [E' _]].
  exists pre, suf. unfold strip. rewrite <- E'. exact E.
Qed.

Lemma strip_edges s :
  edge_ok (strip s) = true /\ edge_ok (rev (strip s)) = true.
Proof.
  unfold strip; split.
  - apply rstrip_keeps_head, lstrip_edge.
  - apply rstrip_edge.
Qed.

Lemma strip_fixed s :
  edge_ok s = true -> edge_ok (rev s) = true -> strip s = s.
Proof.
  intros E1 E2. unfold strip. rewrite (lstrip_fixed _ E1).
  apply rstrip_fixed, E2.
Qed.

(** A text without line-break characters is at most one line. *)
Lemma splitlines_from_single cur s :
  (forall c, In c s -> is_linebreak c = false) ->
  (length (splitlines_from cur s) <= 1)%nat.
Proof.
  revert cur; induction s as [|c s IH]; intros cur Hs; simpl.
  - destruct cur; simpl; lia.
  - rewrite (Hs c) by (left; reflexivity).
    apply IH. intros d Hd. apply Hs. right; exact Hd.
Qed.

Lemma splitlines_single s :
  (forall c, In c s -> is_linebreak c = false) ->
  (length (splitlines s) <= 1)%nat.
Proof. apply splitlines_from_single. Qed.

End TextFacts.

(** ** The shape of the Normalizer's output *)

Section NormalizerFacts.
Import Text Normalizer.
Context {P : Platform}.

Lemma forallb_filter_self {A} (f : A -> bool) (l : list A) :
  forallb f (List.filter f l) = true.
Proof.
  induction l as [|x l IH]; simpl; [reflexivity|].
  destruct (f x) eqn:Hx; simpl; [rewrite Hx|]; exact IH.
Qed.

Lemma forallb_filter_keep {A} (f g : A -> bool) (l : list A) :
  forallb g l = true -> forallb g (List.filter f l) = true.
Proof.
  induction l as [|x l IH]; simpl; [reflexivity|].
  intros [Hx Hl]%andb_prop. destruct (f x); simpl; [rewrite Hx|]; auto.
Qed.

Lemma linebreak_is_space c :
  is_linebreak c = true -> is_space c = true /\ c <> SPACE.
Proof. unfold is_linebreak, is_space, SPACE. lia. Qed.

Lemma special_space : special SPACE = false.
Proof. reflexivity. Qed.

Lemma char_ok_space : char_ok SPACE = true.
Proof.
  unfold char_ok, allowed. rewrite special_space. simpl.
  replace (is_space SPACE) with true by reflexivity.
  rewrite orb_true_r. reflexivity.
Qed.

(** Collapsing white space: what [re.sub(r'\s+', ' ', s)] returns. *)
Lemma squeeze_no_adjacent b s :
  no_adjacent_from b (re_sub_runs_from is_space [SPACE] b s) = true.
Proof.
  revert b; induction s as [|c s IH]; intros b; simpl; [reflexivity|].
  destruct (is_space c) eqn:Hc.
  - destruct b; simpl; [apply IH|].
    replace (is_space SPACE) with true by reflexivity. apply IH.
  - simpl. rewrite Hc, andb_false_r. simpl. apply IH.
Qed.

Lemma squeeze_forallb (f : Z -> bool) b s :
  f SPACE = true -> forallb f s = true ->
  forallb f (re_sub_runs_from is_space [SPACE] b s) = true.
Proof.
  intros Hsp. revert b; induction s as [|c s IH]; intros b; simpl;
    [reflexivity|].
  intros [Hc Hs]%andb_prop.
  destruct (is_space c); [destruct b|]; simpl;
    rewrite ?Hsp, ?Hc; simpl; auto.
Qed.

Lemma squeeze_space_is_ascii b s :
  forallb space_is_ascii (re_sub_runs_from is_space [SPACE] b s) = true.
Proof.
  revert b; induction s as [|c s IH]; intros b; simpl; [reflexivity|].
  destruct (is_space c) eqn:Hc; [destruct b|]; simpl; auto.
  unfold space_is_ascii at 1. rewrite Hc. simpl. auto.
Qed.

Lemma squeeze_fixed b s :
  no_adjacent_from b s = true -> forallb space_is_ascii s = true ->
  re_sub_runs_from is_space [SPACE] b s = s.
Proof.
  revert b; induction s as [|c s IH]; intros b; simpl; [reflexivity|].
  intros [Hb Hs]%andb_prop [Hc Ha]%andb_prop.
  destruct (is_space c) eqn:E.
  - assert (b = false) as -> by (destruct b; [discriminate|reflexivity]).
    assert (c = SPACE) as ->.
    { unfold space_is_ascii in Hc. rewrite E in Hc. simpl in Hc. lia. }
    simpl. f_equal. apply IH; assumption.
  - f_equal. apply IH; assumption.
Qed.

Lemma no_adjacent_weaken b s :
  no_adjacent_from b s = true -> no_adjacent_from false s = true.
Proof.
  destruct s as [|c s]; simpl; [reflexivity|].
  intros [_ Hs]%andb_prop. exact Hs.
Qed.

Lemma no_adjacent_app b p q :
  no_adjacent_from b (p ++ q) = true ->
  no_adjacent_from b p = true /\ no_adjacent_from false q = true.
Proof.
  revert b; induction p as [|c p IH]; intros b; simpl.
  - intros Hq; split; [reflexivity|]. eapply no_adjacent_weaken, Hq.
  - intros [Hb Hs]%andb_prop. destruct (IH _ Hs) as [H1 H2].
    rewrite Hb, H1. auto.
Qed.

Lemma no_adjacent_pair s pre a b post :
  no_adjacent_space s = true -> s = pre ++ a :: b :: post ->
  is_space a = true -> is_space b = true -> False.
Proof.
  unfold no_adjacent_space. intros Hs -> Ha Hb.
  apply no_adjacent_app in Hs as [_ Hs]. simpl in Hs.
  rewrite Ha, Hb in Hs. discriminate.
Qed.

(** The output of the three substitutions and the strip satisfies the
    CleanedText check, whatever the joined text. *)
Lemma clean_joined_ok s : cleaned_text_ok (clean_joined s) = true.
Proof.
  unfold clean_joined, re_sub_runs.
  rewrite re_sub_runs_from_nil, re_sub_each_nil.
  set (t := List.filter _ (List.filter _ s)).
  assert (Ht : forallb char_ok t = true).
  { subst t. unfold char_ok.
    rewrite forallb_forall. intros c [[Hc1 Hc2]%filter_In Hc3]%filter_In.
    rewrite Hc2. rewrite negb_involutive in Hc3. exact Hc3. }
  set (u := re_sub_runs_from is_space [SPACE] false t).
  destruct (strip_decomp u) as [pre [suf E]].
  destruct (strip_edges u) as [E1 E2].
  assert (Hu1 : forallb char_ok u = true)
    by (apply squeeze_forallb; [apply char_ok_space | exact Ht]).
  assert (Hu2 : forallb space_is_ascii u = true)
    by apply squeeze_space_is_ascii.
  assert (Hu3 : no_adjacent_from false u = true) by apply squeeze_no_adjacent.
  rewrite E in Hu1, Hu2, Hu3.
  rewrite !forallb_app in Hu1, Hu2.
  apply andb_prop in Hu1 as [_ [Hu1 _]%andb_prop].
  apply andb_prop in Hu2 as [_ [Hu2 _]%andb_prop].
  apply no_adjacent_app in Hu3 as [_ Hu3].
  apply no_adjacent_app in Hu3 as [Hu3 _].
  unfold cleaned_text_ok, no_adjacent_space.
  rewrite Hu1, Hu2, Hu3, E1, E2. reflexivity.
Qed.

(** A text that passes the CleanedText check is left as it is by the
    substitutions and the strip. *)
Lemma clean_joined_fixed s : cleaned_text_ok s = true -> clean_joined s = s.
Proof.
  unfold cleaned_text_ok.
  intros [[[[H1 H2]%andb_prop H3]%andb_prop H4]%andb_prop H5]%andb_prop.
  unfold clean_joined, re_sub_runs.
  rewrite re_sub_runs_from_nil, re_sub_each_nil.
  assert (F1 : List.filter (fun c => negb (special c)) s = s).
  { apply forallb_filter_id. rewrite forallb_forall in *. intros c Hc.
    specialize (H1 c Hc). unfold char_ok in H1.
    apply andb_prop in H1 as [H1 _]. exact H1. }
  rewrite F1.
  assert (F2 : List.filter (fun c => negb (negb (allowed c))) s = s).
  { apply forallb_filter_id. rewrite forallb_forall in *. intros c Hc.
    specialize (H1 c Hc). unfold char_ok in H1.
    apply andb_prop in H1 as [_ H1]. rewrite H1. reflexivity. }
  rewrite F2.
  rewrite squeeze_fixed by assumption.
  apply strip_fixed; assumption.
Qed.

Lemma clean_persian_text_ok text out :
  clean_persian_text text = Some out -> cleaned_text_ok out = true.
Proof.
  unfold clean_persian_text, normalize.
  destruct (nlp text) as [doc|]; [|discriminate].
  intros [= <-]. apply clean_joined_ok.
Qed.

End NormalizerFacts.

(** ** The Normalizer: claims *)

Section NormalizerClaims.
Import Text Normalizer.
Context {P : Platform}.

(** C1. Character-set invariant: whatever the input text, the string
    returned by [clean_persian_text] holds no tatweel, no ASCII hyphen and
    no underscore, and every character of it is a word character, white
    space, a period, a Persian comma or a colon. *)
Theorem clean_output_charset (text out : str) :
  clean_persian_text text = Some out ->
  forall c, In c out ->
    c <> TATWEEL /\ c <> HYPHEN /\ c <> UNDERSCORE /\
    (is_word c = true \/ is_space c = true \/ c = PERIOD
     \/ c = PERSIAN_COMMA \/ c = COLON).
Proof.
  intros Hout c Hc. apply clean_persian_text_ok in Hout.
  unfold cleaned_text_ok in Hout.
  apply andb_prop in Hout as [Hout _]. apply andb_prop in Hout as [Hout _].
  apply andb_prop in Hout as [Hout _]. apply andb_prop in Hout as [Hout _].
  rewrite forallb_forall in Hout. specialize (Hout c Hc).
  unfold char_ok in Hout. apply andb_prop in Hout as [Hs Ha].
  unfold special, TATWEEL, HYPHEN, UNDERSCORE in *.
  unfold allowed, PERIOD, PERSIAN_COMMA, COLON in *.
  repeat split; try lia.
  destruct (is_word c); [left; reflexivity|].
  destruct (is_space c); [right; left; reflexivity|].
  right; right. simpl in Ha. lia.
Qed.

(** C2. White-space invariant: the string returned by
    [clean_persian_text] has no two consecutive white-space characters,
    its only white-space character is the ASCII space (so it holds no line
    break of any kind and is a single line), and it neither starts nor
    ends with white space. *)
Theorem clean_output_whitespace (text out : str) :
  clean_persian_text text = Some out ->
  (forall pre a b post, out = pre ++ a :: b :: post ->
     is_space a = true -> is_space b = true -> False) /\
  (forall c, In c out -> is_space c = true -> c = SPACE) /\
  (forall c, In c out -> is_linebreak c = false) /\
  (length (splitlines out) <= 1)%nat /\
  (forall c rest, out = c :: rest -> is_space c = false) /\
  (forall c front, out = front ++ [c] -> is_space c = false).
Proof.
  intros Hout. apply clean_persian_text_ok in Hout.
  unfold cleaned_text_ok in Hout.
  apply andb_prop in Hout as [Hout E2]. apply andb_prop in Hout as [Hout E1].
  apply andb_prop in Hout as [Hout Hadj]. apply andb_prop in Hout as [_ Hasc].
  rewrite forallb_forall in Hasc.
  assert (Hsp : forall c, In c out -> is_space c = true -> c = SPACE).
  { intros c Hc Hs. specialize (Hasc c Hc). unfold space_is_ascii in Hasc.
    rewrite Hs in Hasc. simpl in Hasc. lia. }
  assert (Hlb : forall c, In c out -> is_linebreak c = false).
  { intros c Hc. destruct (is_linebreak c) eqn:E; [|reflexivity].
    apply linebreak_is_space in E as [E N]. elim N. apply Hsp; assumption. }
  repeat split.
  - intros pre a b post. apply no_adjacent_pair, Hadj.
  - exact Hsp.
  - exact Hlb.
  - apply splitlines_single, Hlb.
  - intros c rest ->. simpl in E1. destruct (is_space c); [discriminate|auto].
  - intros c front ->. rewrite rev_app_distr in E2. simpl in E2.
    destruct (is_space c); [discriminate|auto].
Qed.

(** C3. Totality: when the tokenizer returns a document, the Normalizer
    returns a string, without raising and without touching the world;
    that string passes the CleanedText check; and for a document without
    tokens it is the empty string.  Only a failure of the tokenizer makes
    [clean_persian_text] fail. *)
Theorem normalizer_total (text : str) (doc : list (list str)) (w : IO.World) :
  nlp text = Some doc ->
  exists out,
    Script.clean_persian_text text w = (IO.Ret out, w) /\
    out = normalize (tokens_of doc) /\
    cleaned_text_ok out = true /\
    (tokens_of doc = [] -> out = []) /\
    (forall text', clean_persian_text text' = None <-> nlp text' = None).
Proof.
  intros Hdoc. exists (normalize (tokens_of doc)).
  unfold Script.clean_persian_text, clean_persian_text. rewrite Hdoc.
  repeat split.
  - apply clean_joined_ok.
  - intros ->. reflexivity.
  - destruct (nlp text'); [discriminate|reflexivity].
  - intros ->. reflexivity.
Qed.

(** C4. Idempotence: let [out] be the cleaned form of a text.  If the
    tokenizer gives for [out] the token sequence it gave for the text,
    cleaning [out] returns [out]; more generally this holds whenever the
    tokens of [out], joined by single spaces, spell [out] again; and [out]
    is a fixed point of the substitutions and the strip. *)
Theorem clean_idempotent (text out : str) :
  clean_persian_text text = Some out ->
  (nlp out = nlp text -> clean_persian_text out = Some out) /\
  (forall doc, nlp out = Some doc -> join [SPACE] (tokens_of doc) = out ->
     clean_persian_text out = Some out) /\
  clean_joined out = out.
Proof.
  intros Hout. repeat split.
  - intros E. unfold clean_persian_text in *. rewrite E. exact Hout.
  - intros doc Hdoc Hjoin. unfold clean_persian_text, normalize.
    rewrite Hdoc, Hjoin. f_equal.
    apply clean_joined_fixed, (clean_persian_text_ok text), Hout.
  - apply clean_joined_fixed, (clean_persian_text_ok text), Hout.
Qed.

End NormalizerClaims.

(** ** The diff report *)

Section ReportFacts.
Import Text IO Script.
Context {P : Platform}.

Lemma put_lines_nil w : put_lines [] w = w.
Proof. destruct w; unfold put_lines; simpl. rewrite app_nil_r. reflexivity. Qed.

Lemma put_lines_put_lines a b w :
  put_lines b (put_lines a w) = put_lines (a ++ b) w.
Proof. unfold put_lines; simpl. rewrite app_assoc. reflexivity. Qed.

Lemma report_loop_eq entries w :
  report_loop entries w =
  (Ret tt,
   put_lines (List.map (fun e => diff_message (fst e) (snd e))
                (List.filter (fun e => is_marker (snd e)) entries)) w).
Proof.
  revert w; induction entries as [|[i line] rest IH]; intros w; simpl.
  - rewrite put_lines_nil. reflexivity.
  - unfold bind. destruct (is_marker line); simpl.
    + rewrite IH, put_lines_put_lines. reflexivity.
    + apply IH.
Qed.

Lemma show_differences_eq original cleaned w :
  show_differences original cleaned w =
  (Ret tt, put_lines (report_lines original cleaned) w).
Proof.
  unfold show_differences, bind, print, report_lines, printed_entries.
  rewrite report_loop_eq, put_lines_put_lines. reflexivity.
Qed.

Lemma enumerate_spec {A} (l : list A) start i x :
  In (i, x) (enumerate start l) <->
  (start <= i)%nat /\ nth_error l (i - start) = Some x.
Proof.
  revert start; induction l as [|y l IH]; intros start; simpl.
  - split; [tauto|]. intros [_ E]. destruct (i - start)%nat; discriminate.
  - rewrite IH. split.
    + intros [[= <- <-]|[Hle E]].
      * split; [lia|]. rewrite Nat.sub_diag. reflexivity.
      * split; [lia|]. replace (i - start)%nat with (S (i - S start)) by lia.
        exact E.
    + intros [Hle E]. destruct (i - start)%nat as [|k] eqn:K; simpl in E.
      * left. injection E as ->. f_equal. lia.
      * right. split; [lia|]. replace (i - S start)%nat with k by lia. exact E.
Qed.

Lemma enumerate_sorted {A} (l : list A) start :
  StronglySorted lt (List.map fst (enumerate start l)).
Proof.
  revert start; induction l as [|y l IH]; intros start; simpl;
    constructor; [apply IH|].
  rewrite List.Forall_forall. intros i [[j x] [<- Hin]]%in_map_iff.
  apply enumerate_spec in Hin. simpl. lia.
Qed.

Lemma filter_sorted {A} (f : nat * A -> bool) (l : list (nat * A)) :
  StronglySorted lt (List.map fst l) ->
  StronglySorted lt (List.map fst (List.filter f l)).
Proof.
  induction l as [|x l IH]; simpl; [constructor|].
  intros Hs. apply StronglySorted_inv in Hs as [Hs Hx].
  destruct (f x); simpl; [|auto]. constructor; [auto|].
  rewrite List.Forall_forall in *. intros i [e [<- He]]%in_map_iff.
  apply Hx, in_map, (proj1 (filter_In _ _ _) He).
Qed.

(** C9. The diff reporter prints the header and then, for the diff
    [ndiff] returned, exactly the entries that start with the deletion
    marker or the insertion marker, in order; an entry is printed under
    its 1-based position in the whole diff, a counter that advances on
    every entry of the diff, printed or not. *)
Theorem show_differences_report (original cleaned : str) (w : World) :
  let diff := diff_of original cleaned in
  let printed := printed_entries diff in
  show_differences original cleaned w =
    (Ret tt,
     put_lines (diff_header ::
                List.map (fun e => lit "Line " ++ str_of_nat (fst e)
                                   ++ lit ": " ++ snd e) printed) w) /\
  (forall i line,
     In (i, line) printed <->
     (1 <= i)%nat /\ nth_error diff (i - 1) = Some line /\
     (startswith (lit "- ") line = true \/ startswith (lit "+ ") line = true)) /\
  StronglySorted lt (List.map fst printed).
Proof.
  intros diff printed. split; [apply show_differences_eq|]. split.
  - intros i line. unfold printed, printed_entries.
    rewrite filter_In, enumerate_spec. simpl. unfold is_marker.
    rewrite orb_true_iff. tauto.
  - apply filter_sorted, enumerate_sorted.
Qed.

End ReportFacts.

(** ** One file, one turn of the loop *)

Section ScriptFacts.
Import Text IO Script.
Context {P : Platform} {H : Host}.

Lemma process_file_eq p q w :
  process_file p q w =
  match read_file p w with
  | (Raise e, w1) => (Ret false, put_lines [read_error_message p e] w1)
  | (Ret text, w1) =>
      match Normalizer.clean_persian_text text with
      | None => (Raise (PipelineError (lit "tokenizer failed")), w1)
      | Some cleaned =>
          match write_file q cleaned w1 with
          | (Raise e, w2) => (Raise e, w2)
          | (Ret _, w2) =>
              (Ret true,
               put_lines (processed_message p q :: report_lines text cleaned
                          ++ [separator]) w2)
          end
      end
  end.
Proof.
  unfold process_file, bind, try_except, Script.clean_persian_text.
  destruct (read_file p w) as [[text|e] w1]; simpl; [|reflexivity].
  destruct (Normalizer.clean_persian_text text) as [cleaned|]; simpl;
    [|reflexivity].
  destruct (write_file q cleaned w1) as [[[]|e] w2]; simpl; [|reflexivity].
  rewrite show_differences_eq. unfold print. simpl.
  rewrite !put_lines_put_lines. reflexivity.
Qed.

Lemma loop_body_eq f acc w :
  loop_body f acc w =
  if endswith (lit ".txt") f then
    match process_file (input_path_of f) (output_path_of f) w with
    | (Raise e, w1) => (Raise e, w1)
    | (Ret false, w1) => (Ret acc, w1)
    | (Ret true, w1) =>
        match os_remove (input_path_of f) w1 with
        | (Ret _, w2) => (Ret (acc ++ [f]), put_lines [deleted_message f] w2)
        | (Raise e, w2) =>
            (Ret (acc ++ [f]), put_lines [delete_error_message f e] w2)
        end
    end
  else (Ret acc, w).
Proof.
  unfold loop_body. destruct (endswith (lit ".txt") f); [|reflexivity].
  unfold bind at 1.
  destruct (process_file _ _ w) as [[[]|e] w1]; try reflexivity.
  unfold bind, try_except, print, ret.
  destruct (os_remove _ w1) as [[[]|e] w2]; reflexivity.
Qed.

Lemma loop_body_cases f acc w (Q : result (list str) -> World -> Prop) :
  let p := input_path_of f in
  let q := output_path_of f in
  (endswith (lit ".txt") f = false -> Q (Ret acc) w) ->
  (forall e w',
     endswith (lit ".txt") f = true ->
     read_file p w = (Raise e, log (EvRead p false) w) ->
     files w' = files w -> dirs w' = dirs w ->
     syslog w' = syslog w ++ [EvRead p false] ->
     console w' = console w ++ [read_error_message p e] ->
     Q (Ret acc) w') ->
  (forall text msg w',
     endswith (lit ".txt") f = true ->
     read_fault p = None -> files w !! p = Some text ->
     Normalizer.clean_persian_text text = None ->
     files w' = files w -> dirs w' = dirs w ->
     syslog w' = syslog w ++ [EvRead p true] ->
     Q (Raise (PipelineError msg)) w') ->
  (forall text cleaned e w',
     endswith (lit ".txt") f = true ->
     read_fault p = None -> files w !! p = Some text ->
     Normalizer.clean_persian_text text = Some cleaned ->
     write_fault q = OpenRaises e ->
     files w' = files w -> dirs w' = dirs w ->
     syslog w' = syslog w ++ [EvRead p true; EvWrite q cleaned false] ->
     Q (Raise e) w') ->
  (forall text cleaned n e w',
     endswith (lit ".txt") f = true ->
     read_fault p = None -> files w !! p = Some text ->
     Normalizer.clean_persian_text text = Some cleaned ->
     write_fault q = WriteRaises n e ->
     files w' = <[q := take n cleaned]> (files w) -> dirs w' = dirs w ->
     syslog w' = syslog w ++ [EvRead p true; EvWrite q cleaned false] ->
     Q (Raise e) w') ->
  (forall text cleaned w',
     endswith (lit ".txt") f = true ->
     read_fault p = None -> files w !! p = Some text ->
     Normalizer.clean_persian_text text = Some cleaned ->
     write_fault q = WriteDone -> remove_fault p = None ->
     files w' = delete p (<[q := cleaned]> (files w)) -> dirs w' = dirs w ->
     syslog w' = syslog w
                 ++ [EvRead p true; EvWrite q cleaned true; EvRemove p true] ->
     console w' = console w ++ (processed_message p q :: report_lines text cleaned
                          ++ [separator]) ++ [deleted_message f] ->
     Q (Ret (acc ++ [f])) w') ->
  (forall text cleaned e w',
     endswith (lit ".txt") f = true ->
     read_fault p = None -> files w !! p = Some text ->
     Normalizer.clean_persian_text text = Some cleaned ->
     write_fault q = WriteDone -> remove_fault p = Some e ->
     files w' = <[q := cleaned]> (files w) -> dirs w' = dirs w ->
     syslog w' = syslog w
                 ++ [EvRead p true; EvWrite q cleaned true; EvRemove p false] ->
     console w' = console w ++ (processed_message p q :: report_lines text cleaned
                          ++ [separator]) ++ [delete_error_message f e] ->
     Q (Ret (acc ++ [f])) w') ->
  forall r w', loop_body f acc w = (r, w') -> Q r w'.
Proof.
  intros p q Hskip Hread Htok Hopen Hwrite Hdel Hkeep r w'.
  rewrite loop_body_eq.
  destruct (endswith (lit ".txt") f) eqn:Hext in |- *;
    [|intros [= <- <-]; apply Hskip; exact Hext].
  rewrite process_file_eq. fold p q.
  unfold read_file.
  destruct (read_fault p) as [e|] eqn:Hrf in |- *.
  { intros [= <- <-]. apply (Hread e); auto.
    unfold read_file. rewrite Hrf. reflexivity. }
  destruct (files w !! p) as [text|] eqn:Hp in |- *.
  2:{ intros [= <- <-]. apply (Hread (no_such_file p)); auto.
      unfold read_file. rewrite Hrf, Hp. reflexivity. }
  destruct (Normalizer.clean_persian_text text) as [cleaned|] eqn:Hc in |- *.
  2:{ intros [= <- <-]. eapply Htok; eauto. }
  unfold write_file.
  destruct (write_fault q) as [|e|n e] eqn:Hwf in |- *.
  - unfold os_remove.
    destruct (remove_fault p) as [e|] eqn:Hrm in |- *.
    + intros [= <- <-]. eapply (Hkeep text cleaned e); eauto.
      * simpl. rewrite <- !app_assoc. reflexivity.
      * simpl. rewrite <- !app_assoc. simpl. rewrite <- ?app_assoc.
        reflexivity.
    + simpl.
      assert (Hq : is_Some (<[q := cleaned]> (files w) !! p)).
      { destruct (decide (q = p)) as [E|N].
        - exists cleaned. rewrite E. apply lookup_insert_eq.
        - exists text. etransitivity; [apply lookup_insert_ne, N | exact Hp]. }
      destruct Hq as [t Hq]. rewrite Hq.
      intros [= <- <-]. eapply (Hdel text cleaned); eauto.
      * simpl. rewrite <- !app_assoc. reflexivity.
      * simpl. rewrite <- !app_assoc. simpl. rewrite <- ?app_assoc.
        reflexivity.
  - intros [= <- <-]. eapply (Hopen text cleaned e); eauto.
    simpl. rewrite <- !app_assoc. reflexivity.
  - intros [= <- <-]. eapply (Hwrite text cleaned n e); eauto.
    simpl. rewrite <- !app_assoc. reflexivity.
Qed.
End ScriptFacts.

(** ** Paths *)

Section PathFacts.
Import Text IO Script.
Context {H : Host}.

Lemma os_path_join_length_le a b :
  (length (os_path_join a b) <= length a + 1 + length b)%nat.
Proof.
  unfold os_path_join.
  destruct (startswith [SLASH] b); [lia|].
  destruct (_ || _); rewrite ?length_app; simpl; lia.
Qed.

Lemma os_path_join_length_ge a b :
  startswith [SLASH] b = false ->
  (length a + length b <= length (os_path_join a b))%nat.
Proof.
  unfold os_path_join. intros ->.
  destruct (_ || _); rewrite ?length_app; simpl; lia.
Qed.

Lemma output_folder_length :
  (length project_root + 14 <= length output_folder)%nat.
Proof.
  unfold output_folder.
  etransitivity; [|apply os_path_join_length_ge; reflexivity]. simpl. lia.
Qed.

Lemma output_path_length f :
  (length project_root + 21 + length f <= length (output_path_of f))%nat.
Proof.
  unfold output_path_of.
  etransitivity; [|apply os_path_join_length_ge; reflexivity].
  pose proof output_folder_length. rewrite length_app. simpl. lia.
Qed.

Lemma input_path_length f :
  (length (input_path_of f) <= length project_root + 1 + length f)%nat.
Proof. apply os_path_join_length_le. Qed.

Lemma input_output_distinct f : input_path_of f <> output_path_of f.
Proof.
  intros E. pose proof (input_path_length f). pose proof (output_path_length f).
  rewrite E in *. lia.
Qed.

Lemma output_not_list_file f : output_path_of f <> processed_list_file.
Proof.
  intros E. pose proof (output_path_length f).
  pose proof (os_path_join_length_le project_root (lit "editedbook_list.txt")).
  fold processed_list_file in *. rewrite E in *. simpl in *. lia.
Qed.

Lemma output_path_inj f g : output_path_of f = output_path_of g -> f = g.
Proof.
  unfold output_path_of, os_path_join. simpl.
  destruct (_ || _); intros E.
  - apply app_inv_head in E. injection E. auto.
  - apply app_inv_head in E. injection E. auto.
Qed.
End PathFacts.

(** ** The loop over the directory entries *)

Section LoopFacts.
Import Text IO Script.
Context {P : Platform} {H : Host}.

Lemma deletes_follow_writes_app t1 t2 :
  deletes_follow_writes t1 -> deletes_follow_writes t2 ->
  deletes_follow_writes (t1 ++ t2).
Proof.
  intros H1 H2 before path ok after E.
  apply app_eq_app in E as [l [[E1 E2]|[E1 E2]]].
  - destruct l as [|e l]; simpl in E2.
    + destruct (H2 [] path ok after (eq_sym E2)) as (f & c & _ & []).
    + injection E2 as <- ->. apply (H1 _ _ _ _ E1).
  - destruct (H2 _ _ _ _ E2) as (f & c & Hp & Hin).
    exists f, c. split; [exact Hp|]. rewrite E1. apply in_or_app. right; exact Hin.
Qed.

Lemma deletes_follow_writes_quiet tr :
  forallb (fun e => negb (is_remove e)) tr = true -> deletes_follow_writes tr.
Proof.
  intros Hq before path ok after ->.
  rewrite forallb_app in Hq. apply andb_prop in Hq as [_ Hq]. discriminate.
Qed.

Ltac split_trace E before :=
  destruct before as [|? [|? [|? [|? before]]]]; simpl in E;
  try discriminate E.

Lemma insert_keeps_presence (m : gmap (list Z) (list Z)) q v k :
  is_Some (m !! k) -> is_Some (<[q := v]> m !! k).
Proof.
  intros Hk. destruct (decide (q = k)) as [->|N].
  - rewrite lookup_insert_eq. eauto.
  - rewrite lookup_insert_ne by exact N. exact Hk.
Qed.

Lemma absent_not_present (m : gmap (list Z) (list Z)) k :
  is_Some (m !! k) -> m !! k = None -> False.
Proof. intros [t E] N. congruence. Qed.

(** What one turn of the loop does to the world. *)
Lemma loop_body_run f acc w r w' :
  loop_body f acc w = (r, w') ->
  exists tr,
    syslog w' = syslog w ++ tr /\ dirs w' = dirs w /\
    List.Forall loop_event tr /\
    deletes_follow_writes tr /\
    (forall path, is_Some (files w !! path) -> files w' !! path = None ->
       In (EvRemove path true) tr) /\
    (forall g c, In (EvWrite (output_path_of g) c false) tr ->
       (exists e, r = Raise e) /\ is_Some (files w' !! input_path_of g)) /\
    (forall final, r = Ret final ->
       (final = acc /\ forall q c, ~ In (EvWrite q c true) tr) \/
       (final = acc ++ [f] /\ endswith (lit ".txt") f = true /\
        (exists c, In (EvWrite (output_path_of f) c true) tr) /\
        forall q c, In (EvWrite q c true) tr -> q = output_path_of f)).
Proof.
  revert r w'. apply loop_body_cases.
  - intros _. exists []. rewrite app_nil_r. split_and!; auto.
    + apply deletes_follow_writes_quiet; reflexivity.
    + intros path Hp Hn. destruct (absent_not_present _ _ Hp Hn).
    + intros g c [].
    + intros final [= <-]. left. split; [reflexivity|]. intros q c [].
  - intros e w' _ _ Hf Hd Hs _. exists [EvRead (input_path_of f) false].
    split_and!; auto.
    + repeat constructor. simpl. eauto.
    + apply deletes_follow_writes_quiet; reflexivity.
    + intros path Hp Hn. rewrite Hf in Hn.
      destruct (absent_not_present _ _ Hp Hn).
    + intros g c [E|[]]; discriminate E.
    + intros final [= <-]. left. split; [reflexivity|].
      intros q c [E|[]]; discriminate E.
  - intros text msg w' _ _ Hp _ Hf Hd Hs. exists [EvRead (input_path_of f) true].
    split_and!; auto.
    + repeat constructor. simpl. eauto.
    + apply deletes_follow_writes_quiet; reflexivity.
    + intros path Hp' Hn. rewrite Hf in Hn.
      destruct (absent_not_present _ _ Hp' Hn).
    + intros g c [E|[]]; discriminate E.
    + intros final [=].
  - intros text cleaned e w' _ _ Hp _ _ Hf Hd Hs.
    eexists. split_and!; [exact Hs|auto|..].
    + repeat constructor; simpl; eauto.
    + apply deletes_follow_writes_quiet; reflexivity.
    + intros path Hp' Hn. rewrite Hf in Hn.
      destruct (absent_not_present _ _ Hp' Hn).
    + intros g c [E|[E|[]]]; [discriminate E|]. injection E as E _.
      apply output_path_inj in E as <-. split; [eauto|].
      rewrite Hf. eexists; exact Hp.
    + intros final [=].
  - intros text cleaned n e w' _ _ Hp _ _ Hf Hd Hs.
    eexists. split_and!; [exact Hs|auto|..].
    + repeat constructor; simpl; eauto.
    + apply deletes_follow_writes_quiet; reflexivity.
    + intros path Hp' Hn. rewrite Hf in Hn.
      destruct (absent_not_present _ _ (insert_keeps_presence _ _ _ _ Hp') Hn).
    + intros g c [E|[E|[]]]; [discriminate E|]. injection E as E _.
      apply output_path_inj in E as <-. split; [eauto|].
      rewrite Hf. apply insert_keeps_presence. eexists; exact Hp.
    + intros final [=].
  - intros text cleaned w' Hext _ Hp _ _ _ Hf Hd Hs _.
    eexists. split_and!; [exact Hs|auto|..].
    + repeat constructor; simpl; eauto.
    + intros before path ok after E. split_trace E before.
      injection E as <- <- <- _ _. exists f, cleaned. split; [reflexivity|].
      right; left; reflexivity.
    + intros path Hp' Hn. rewrite Hf in Hn.
      destruct (decide (input_path_of f = path)) as [<-|N].
      * right; right; left; reflexivity.
      * rewrite lookup_delete_ne in Hn by exact N.
        destruct (absent_not_present _ _
                    (insert_keeps_presence _ _ _ _ Hp') Hn).
    + intros g c [E|[E|[E|[]]]]; discriminate E.
    + intros final [= <-]. right. split_and!; auto.
      * exists cleaned. right; left; reflexivity.
      * intros q c [E|[E|[E|[]]]]; try discriminate E.
        injection E as <- _. reflexivity.
  - intros text cleaned e w' Hext _ Hp _ _ _ Hf Hd Hs _.
    eexists. split_and!; [exact Hs|auto|..].
    + repeat constructor; simpl; eauto.
    + intros before path ok after E. split_trace E before.
      injection E as <- <- <- _ _. exists f, cleaned. split; [reflexivity|].
      right; left; reflexivity.
    + intros path Hp' Hn. rewrite Hf in Hn.
      destruct (absent_not_present _ _
                  (insert_keeps_presence _ _ _ _ Hp') Hn).
    + intros g c [E|[E|[E|[]]]]; discriminate E.
    + intros final [= <-]. right. split_and!; auto.
      * exists cleaned. right; left; reflexivity.
      * intros q c [E|[E|[E|[]]]]; try discriminate E.
        injection E as <- _. reflexivity.
Qed.

Lemma main_loop_run names acc w r w' :
  main_loop names acc w = (r, w') ->
  exists tr,
    syslog w' = syslog w ++ tr /\ dirs w' = dirs w /\
    List.Forall loop_event tr /\
    deletes_follow_writes tr /\
    (forall path, is_Some (files w !! path) -> files w' !! path = None ->
       In (EvRemove path true) tr) /\
    (forall g c, In (EvWrite (output_path_of g) c false) tr ->
       (exists e, r = Raise e) /\ is_Some (files w' !! input_path_of g)) /\
    (forall final, r = Ret final ->
       exists more,
         final = acc ++ more /\
         (forall f, In f more ->
            In f names /\ endswith (lit ".txt") f = true /\
            exists c, In (EvWrite (output_path_of f) c true) tr) /\
         (forall q c, In (EvWrite q c true) tr ->
            exists f, In f more /\ q = output_path_of f)).
Proof.
  revert acc w; induction names as [|f rest IH]; intros acc w; simpl.
  - intros [= <- <-]. exists []. rewrite app_nil_r. split_and!; auto.
    + apply deletes_follow_writes_quiet; reflexivity.
    + intros path Hp Hn. destruct (absent_not_present _ _ Hp Hn).
    + intros g c [].
    + intros final [= <-]. exists []. rewrite app_nil_r.
      split_and!; auto; [intros f [] | intros q c []].
  - unfold bind. destruct (loop_body f acc w) as [[acc1|e] w1] eqn:Hb.
    + intros Hrest.
      destruct (loop_body_run _ _ _ _ _ Hb)
        as (tr1 & Hs1 & Hd1 & He1 & Hg1 & Hl1 & Hf1 & Hr1).
      destruct (IH _ _ Hrest)
        as (tr2 & Hs2 & Hd2 & He2 & Hg2 & Hl2 & Hf2 & Hr2).
      exists (tr1 ++ tr2). split_and!.
      * rewrite Hs2, Hs1, app_assoc. reflexivity.
      * congruence.
      * apply Forall_app; auto.
      * apply deletes_follow_writes_app; assumption.
      * intros path Hp Hn. apply in_or_app.
        destruct (files w1 !! path) as [t|] eqn:E.
        -- right. apply Hl2; [rewrite E; eauto | exact Hn].
        -- left. apply Hl1; assumption.
      * intros g c [Hin|Hin]%in_app_or.
        -- destruct (Hf1 _ _ Hin) as [[e [=]] _].
        -- apply (Hf2 _ _ Hin).
      * intros final Hfin.
        destruct (Hr2 _ Hfin) as (more2 & -> & Hm2 & Hn2).
        destruct (Hr1 _ eq_refl)
          as [[-> Hno]|(-> & Hext & [c Hc] & Honly)].
        -- exists more2. split_and!; [reflexivity| |].
           ++ intros g Hg. destruct (Hm2 g Hg) as (Hin & Hx & c & Hc).
              split_and!; [right; exact Hin | exact Hx |].
              exists c. apply in_or_app. right; exact Hc.
           ++ intros q c [Hin|Hin]%in_app_or;
                [destruct (Hno _ _ Hin) | exact (Hn2 _ _ Hin)].
        -- exists (f :: more2). split_and!.
           ++ rewrite <- app_assoc. reflexivity.
           ++ intros g [<-|Hg].
              ** split_and!; [left; reflexivity | exact Hext |].
                 exists c. apply in_or_app. left; exact Hc.
              ** destruct (Hm2 g Hg) as (Hin & Hx & c' & Hc').
                 split_and!; [right; exact Hin | exact Hx |].
                 exists c'. apply in_or_app. right; exact Hc'.
           ++ intros q c' [Hin|Hin]%in_app_or.
              ** exists f. split; [left; reflexivity | exact (Honly _ _ Hin)].
              ** destruct (Hn2 _ _ Hin) as (g & Hg & ->).
                 exists g. split; [right; exact Hg | reflexivity].
    + intros [= <- <-].
      destruct (loop_body_run _ _ _ _ _ Hb)
        as (tr1 & Hs1 & Hd1 & He1 & Hg1 & Hl1 & Hf1 & Hr1).
      exists tr1. split_and!; auto. intros final [=].
Qed.

Lemma save_list_run processed w r w' :
  save_list processed w = (r, w') ->
  dirs w' = dirs w /\
  match processed with
  | [] => r = Ret tt /\ syslog w' = syslog w /\ files w' = files w
  | _ :: _ =>
      exists ok,
        syslog w' = syslog w
                    ++ [EvWrite processed_list_file (manifest_text processed) ok] /\
        (forall path, is_Some (files w !! path) -> is_Some (files w' !! path)) /\
        (write_fault processed_list_file = WriteDone -> ok = true) /\
        (if ok then r = Ret tt /\
                    files w' = <[processed_list_file := manifest_text processed]>
                                 (files w)
         else exists e, r = Raise e)
  end.
Proof.
  destruct processed as [|f rest].
  - simpl. intros [= <- <-]. auto.
  - unfold save_list, bind, write_file, print.
    destruct (write_fault processed_list_file) as [|e|n e];
      intros [= <- <-]; simpl; split; auto.
    + exists true. split_and!; auto. intros path. apply insert_keeps_presence.
    + exists false. split_and!; eauto. discriminate.
    + exists false. split_and!; eauto; [|discriminate].
      intros path. apply insert_keeps_presence.
Qed.

Lemma main_cases w (Q : result unit -> World -> Prop) :
  (forall e w',
     makedirs_fault output_folder = Some e ->
     syslog w' = syslog w ++ [EvMakedirs output_folder false] ->
     files w' = files w -> Q (Raise e) w') ->
  (forall setup w0 rl w1 r w',
     setup = [EvListdir input_folder] \/
     setup = [EvMakedirs output_folder true; EvListdir input_folder] ->
     syslog w0 = syslog w ++ setup -> files w0 = files w ->
     dirs w ⊆ dirs w0 -> console w0 = console w ->
     main_loop (dir_entries input_folder w0) [] w0 = (rl, w1) ->
     match rl with
     | Raise e => r = Raise e /\ w' = w1
     | Ret processed => save_list processed w1 = (r, w')
     end ->
     Q r w') ->
  forall r w', main w = (r, w') -> Q r w'.
Proof.
  intros Hmk Hrun r w'. unfold main, bind at 1, os_path_exists.
  set (present := _ || _). unfold bind at 1.
  destruct present; simpl.
  - unfold bind at 1, os_listdir.
    unfold bind at 1.
    destruct (main_loop _ [] _) as [[processed|e] w1] eqn:Hl.
    + intros Hs.
      eapply (Hrun _ _ _ _ _ _ (or_introl eq_refl));
        [| | | |exact Hl|exact Hs]; reflexivity.
    + intros [= <- <-].
      eapply (Hrun _ _ _ _ _ _ (or_introl eq_refl));
        [| | | |exact Hl|split; reflexivity]; reflexivity.
  - unfold os_makedirs.
    destruct (makedirs_fault output_folder) as [e|] eqn:Hmf in |- *.
    + intros [= <- <-]. apply Hmk; [exact Hmf|reflexivity..].
    + unfold bind at 1, os_listdir. unfold bind at 1.
      destruct (main_loop _ [] _) as [[processed|e] w1] eqn:Hl.
      * intros Hs.
        eapply (Hrun _ _ _ _ _ _ (or_intror eq_refl));
          [| | | |exact Hl|exact Hs];
          simpl; rewrite <- ?app_assoc; try reflexivity. set_solver.
      * intros [= <- <-].
        eapply (Hrun _ _ _ _ _ _ (or_intror eq_refl));
          [| | | |exact Hl|split; reflexivity];
          simpl; rewrite <- ?app_assoc; try reflexivity. set_solver.
Qed.
End LoopFacts.

(** ** A whole run *)

Section RunFacts.
Import Text IO Script.
Context {P : Platform} {H : Host}.

Lemma writes_to_app path t1 t2 :
  writes_to path (t1 ++ t2) = (writes_to path t1 + writes_to path t2)%nat.
Proof. unfold writes_to. rewrite List.filter_app, length_app. reflexivity. Qed.

Lemma loop_writes_elsewhere tr :
  List.Forall loop_event tr -> writes_to processed_list_file tr = 0%nat.
Proof.
  unfold writes_to. induction 1 as [|e tr He _ IH]; simpl; [reflexivity|].
  destruct e as [| q c ok | | |]; simpl; try exact IH.
  destruct He as [f ->]. rewrite bool_decide_eq_false_2; [exact IH|].
  apply output_not_list_file.
Qed.

Lemma loop_event_not_list_write tr c ok :
  List.Forall loop_event tr -> ~ In (EvWrite processed_list_file c ok) tr.
Proof.
  intros Hall Hin. rewrite List.Forall_forall in Hall.
  destruct (Hall _ Hin) as [f E]. symmetry in E.
  exact (output_not_list_file f E).
Qed.

Lemma manifest_text_app a b :
  manifest_text (a ++ b) = manifest_text a ++ manifest_text b.
Proof. unfold manifest_text. rewrite List.map_app, concat_app. reflexivity. Qed.

Lemma manifest_text_line f processed :
  In f processed ->
  exists above below, manifest_text processed = above ++ f ++ [LF] ++ below.
Proof.
  intros (l1 & l2 & ->)%in_split.
  exists (manifest_text l1), (manifest_text l2).
  rewrite manifest_text_app. unfold manifest_text at 2. simpl.
  rewrite <- app_assoc. reflexivity.
Qed.

(** What a whole run of [main] does. *)
Lemma main_run w r w' :
  main w = (r, w') ->
  exists setup loop_tr tail,
    syslog w' = syslog w ++ setup ++ loop_tr ++ tail /\
    (setup = [EvMakedirs output_folder false] \/
     setup = [EvListdir input_folder] \/
     setup = [EvMakedirs output_folder true; EvListdir input_folder]) /\
    List.Forall loop_event loop_tr /\
    deletes_follow_writes loop_tr /\
    (forall path, is_Some (files w !! path) -> files w' !! path = None ->
       In (EvRemove path true) loop_tr) /\
    (forall g c, In (EvWrite (output_path_of g) c false) loop_tr ->
       (exists e, r = Raise e) /\ is_Some (files w' !! input_path_of g)) /\
    ((tail = [] /\
      (r = Ret tt -> forall q c, ~ In (EvWrite q c true) loop_tr)) \/
     (exists processed ok,
        tail = [EvWrite processed_list_file (manifest_text processed) ok] /\
        processed <> [] /\
        (forall f, In f processed <->
                   exists c, In (EvWrite (output_path_of f) c true) loop_tr) /\
        (if ok then r = Ret tt /\
                    files w' !! processed_list_file
                    = Some (manifest_text processed)
         else exists e, r = Raise e))).
Proof.
  revert r w'. apply main_cases.
  - intros e w' _ Hs Hf. exists [EvMakedirs output_folder false], [], [].
    split_and!.
    + rewrite Hs, app_nil_r. reflexivity.
    + left; reflexivity.
    + constructor.
    + apply deletes_follow_writes_quiet; reflexivity.
    + intros path Hp Hn. rewrite Hf in Hn.
      destruct (absent_not_present _ _ Hp Hn).
    + intros g c [].
    + left. split; [reflexivity|]. intros [=].
  - intros setup w0 rl w1 r w' Hsetup Hs0 Hf0 _ _ Hloop Hrest.
    destruct (main_loop_run _ _ _ _ _ Hloop)
      as (tr & Hs1 & Hd1 & He1 & Hg1 & Hl1 & Hw1 & Hr1).
    rewrite Hf0 in Hl1.
    destruct rl as [processed|e].
    + destruct (Hr1 _ eq_refl) as (more & -> & Hm & Hc). simpl in *.
      destruct (save_list_run _ _ _ _ Hrest) as [Hd2 Hsave].
      destruct more as [|f more].
      * destruct Hsave as (-> & Hs2 & Hf2). exists setup, tr, [].
        rewrite app_nil_r, Hs2, Hs1, Hs0, <- app_assoc. rewrite Hf2.
        split_and!.
        -- reflexivity.
        -- destruct Hsetup as [->| ->]; auto.
        -- exact He1.
        -- exact Hg1.
        -- exact Hl1.
        -- intros g c Hin. destruct (Hw1 _ _ Hin) as [[e [=]] _].
        -- left. split; [reflexivity|]. intros _ q c Hin.
           destruct (Hc _ _ Hin) as (f & [] & _).
      * destruct Hsave as (ok & Hs2 & Hkeep & _ & Hok).
        exists setup, tr,
          [EvWrite processed_list_file (manifest_text (f :: more)) ok].
        split_and!.
        -- rewrite Hs2, Hs1, Hs0, <- !app_assoc. reflexivity.
        -- destruct Hsetup as [->| ->]; auto.
        -- exact He1.
        -- exact Hg1.
        -- intros path Hp Hn. apply Hl1; [exact Hp|].
           destruct (files w1 !! path) eqn:E; [|reflexivity].
           destruct (absent_not_present _ _ (Hkeep path (mk_is_Some _ _ E)) Hn).
        -- intros g c Hin. destruct (Hw1 _ _ Hin) as [[e [=]] _].
        -- right. exists (f :: more), ok. split_and!.
           ++ reflexivity.
           ++ discriminate.
           ++ intros g. split.
              ** intros Hg. destruct (Hm g Hg) as (_ & _ & Hex). exact Hex.
              ** intros [c Hin]. destruct (Hc _ _ Hin) as (g' & Hg' & E).
                 apply output_path_inj in E as ->. exact Hg'.
           ++ destruct ok; [|exact Hok]. destruct Hok as [-> ->].
              split; [reflexivity|]. apply lookup_insert_eq.
    + destruct Hrest as [-> ->]. exists setup, tr, [].
      rewrite app_nil_r, Hs1, Hs0, <- app_assoc.
      split_and!.
      * reflexivity.
      * destruct Hsetup as [->| ->]; auto.
      * exact He1.
      * exact Hg1.
      * exact Hl1.
      * intros g c Hin. destruct (Hw1 _ _ Hin) as [_ Hp]. eauto.
      * left. split; [reflexivity|]. intros [=].
Qed.

Lemma script_run w r w' :
  script w = (r, w') ->
  exists setup loop_tr tail,
    syslog w' = syslog w ++ setup ++ loop_tr ++ tail /\
    (setup = [] \/
     setup = [EvMakedirs output_folder false] \/
     setup = [EvListdir input_folder] \/
     setup = [EvMakedirs output_folder true; EvListdir input_folder]) /\
    List.Forall loop_event loop_tr /\
    deletes_follow_writes loop_tr /\
    (forall path, is_Some (files w !! path) -> files w' !! path = None ->
       In (EvRemove path true) loop_tr) /\
    (forall g c, In (EvWrite (output_path_of g) c false) loop_tr ->
       (exists e, r = Raise e) /\ is_Some (files w' !! input_path_of g)) /\
    ((tail = [] /\
      (r = Ret tt -> forall q c, ~ In (EvWrite q c true) loop_tr)) \/
     (exists processed ok,
        tail = [EvWrite processed_list_file (manifest_text processed) ok] /\
        processed <> [] /\
        (forall f, In f processed <->
                   exists c, In (EvWrite (output_path_of f) c true) loop_tr) /\
        (if ok then r = Ret tt /\
                    files w' !! processed_list_file
                    = Some (manifest_text processed)
         else exists e, r = Raise e))).
Proof.
  unfold script. destruct pipeline_ready.
  - intros Hm.
    destruct (main_run _ _ _ Hm) as (setup & tr & tail & Hs & Hsetup & Hrest).
    exists setup, tr, tail. split_and!; [exact Hs | tauto | apply Hrest..].
  - intros [= <- <-]. exists [], [], []. split_and!.
    + rewrite app_nil_r. reflexivity.
    + left; reflexivity.
    + constructor.
    + apply deletes_follow_writes_quiet; reflexivity.
    + intros path Hp Hn. destruct (absent_not_present _ _ Hp Hn).
    + intros g c [].
    + left. split; [reflexivity|]. intros [=].
Qed.

Lemma setup_no_write setup path c ok :
  setup = [] \/
  setup = [EvMakedirs output_folder false] \/
  setup = [EvListdir input_folder] \/
  setup = [EvMakedirs output_folder true; EvListdir input_folder] ->
  ~ In (EvWrite path c ok) setup.
Proof.
  intros [->|[->|[->| ->]]] Hin; simpl in Hin;
    repeat (destruct Hin as [Hin|Hin]; [discriminate Hin|]); exact Hin.
Qed.

Lemma setup_quiet setup :
  setup = [] \/
  setup = [EvMakedirs output_folder false] \/
  setup = [EvListdir input_folder] \/
  setup = [EvMakedirs output_folder true; EvListdir input_folder] ->
  forallb (fun e => negb (is_remove e)) setup = true /\
  writes_to processed_list_file setup = 0%nat.
Proof. intros [->|[->|[->| ->]]]; split; reflexivity. Qed.

Lemma read_file_raises p w e w1 :
  read_file p w = (Raise e, w1) -> w1 = log (EvRead p false) w.
Proof.
  unfold read_file. destruct (read_fault p); [intros [= _ <-]; reflexivity|].
  destruct (files w !! p); [discriminate|]. intros [= _ <-]. reflexivity.
Qed.

Lemma os_remove_raises p w e w1 :
  os_remove p w = (Raise e, w1) -> w1 = log (EvRemove p false) w.
Proof.
  unfold os_remove. destruct (remove_fault p); [intros [= _ <-]; reflexivity|].
  destruct (files w !! p); [discriminate|]. intros [= _ <-]. reflexivity.
Qed.

Lemma process_file_true p q w w1 :
  process_file p q w = (Ret true, w1) ->
  exists text cleaned,
    files w !! p = Some text /\
    Normalizer.clean_persian_text text = Some cleaned /\
    write_fault q = WriteDone /\
    files w1 = <[q := cleaned]> (files w).
Proof.
  rewrite process_file_eq. unfold read_file, write_file.
  destruct (read_fault p); [discriminate|].
  destruct (files w !! p) as [text|]; [|discriminate].
  destruct (Normalizer.clean_persian_text text) as [cleaned|] eqn:Hc;
    [|discriminate].
  destruct (write_fault q); [|discriminate..].
  intros [= <-]. exists text, cleaned. auto.
Qed.

Lemma main_loop_cons f rest acc w acc' w' :
  loop_body f acc w = (Ret acc', w') ->
  main_loop (f :: rest) acc w = main_loop rest acc' w'.
Proof. intros Hb. simpl. unfold bind. rewrite Hb. reflexivity. Qed.

Lemma main_loop_aborts f rest acc w e w' :
  loop_body f acc w = (Raise e, w') ->
  main_loop (f :: rest) acc w = (Raise e, w').
Proof. intros Hb. simpl. unfold bind. rewrite Hb. reflexivity. Qed.

End RunFacts.

(** ** Runs on which the tokenizer answers and writes succeed *)

Section Contained.
Import Text IO Script.
Context {P : Platform} {H : Host}.
Hypothesis nlp_total : forall text, is_Some (nlp text).
Hypothesis writes_succeed : forall path, write_fault path = WriteDone.

Lemma clean_total text : Normalizer.clean_persian_text text <> None.
Proof.
  unfold Normalizer.clean_persian_text.
  destruct (nlp_total text) as [doc ->]. discriminate.
Qed.

Lemma loop_body_contained f acc w :
  exists acc' w' tr lines,
    loop_body f acc w = (Ret acc', w') /\
    syslog w' = syslog w ++ tr /\
    console w' = console w ++ lines /\
    (endswith (lit ".txt") f = true ->
     exists ok, In (EvRead (input_path_of f) ok) tr) /\
    (forall path, In (EvRead path false) tr ->
       exists e, In (read_error_message path e) lines) /\
    (forall path, In (EvRemove path false) tr ->
       exists g e, path = input_path_of g /\
                   In (delete_error_message g e) lines).
Proof.
  destruct (loop_body f acc w) as [r w'] eqn:Hb. revert r w' Hb.
  apply loop_body_cases.
  - intros Hext. exists acc, w, [], []. rewrite !app_nil_r.
    split_and!; try reflexivity.
    + rewrite Hext. discriminate.
    + intros path [].
    + intros path [].
  - intros e w' _ _ _ _ Hs Hc. exists acc, w'. eexists. eexists.
    split_and!; [reflexivity|exact Hs|exact Hc|..].
    + intros _. exists false. left; reflexivity.
    + intros path [E|[]]. injection E as <-. exists e. left; reflexivity.
    + intros path [E|[]]. discriminate E.
  - intros text msg w' _ _ _ Hc. destruct (clean_total _ Hc).
  - intros text cleaned e w' _ _ _ _ Hw. rewrite writes_succeed in Hw.
    discriminate Hw.
  - intros text cleaned n e w' _ _ _ _ Hw. rewrite writes_succeed in Hw.
    discriminate Hw.
  - intros text cleaned w' _ _ _ _ _ _ _ _ Hs Hc.
    exists (acc ++ [f]), w'. eexists. eexists.
    split_and!; [reflexivity|exact Hs|exact Hc|..].
    + intros _. exists true. left; reflexivity.
    + intros path [E|[E|[E|[]]]]; discriminate E.
    + intros path [E|[E|[E|[]]]]; discriminate E.
  - intros text cleaned e w' _ _ _ _ _ _ _ _ Hs Hc.
    exists (acc ++ [f]), w'. eexists. eexists.
    split_and!; [reflexivity|exact Hs|exact Hc|..].
    + intros _. exists true. left; reflexivity.
    + intros path [E|[E|[E|[]]]]; discriminate E.
    + intros path [E|[E|[E|[]]]]; try discriminate E.
      injection E as <-. exists f, e. split; [reflexivity|].
      apply in_or_app; right. left; reflexivity.
Qed.

Lemma main_loop_contained names acc w :
  exists final w' tr lines,
    main_loop names acc w = (Ret final, w') /\
    syslog w' = syslog w ++ tr /\
    console w' = console w ++ lines /\
    (forall f, In f names -> endswith (lit ".txt") f = true ->
       exists ok, In (EvRead (input_path_of f) ok) tr) /\
    (forall path, In (EvRead path false) tr ->
       exists e, In (read_error_message path e) lines) /\
    (forall path, In (EvRemove path false) tr ->
       exists g e, path = input_path_of g /\
                   In (delete_error_message g e) lines).
Proof.
  revert acc w; induction names as [|f rest IH]; intros acc w.
  - exists acc, w, [], []. rewrite !app_nil_r. split_and!; try reflexivity.
    + intros f [].
    + intros path [].
    + intros path [].
  - destruct (loop_body_contained f acc w)
      as (acc1 & w1 & tr1 & l1 & Hb & Hs1 & Hc1 & Ha1 & Hr1 & Hd1).
    destruct (IH acc1 w1)
      as (final & w' & tr2 & l2 & Hl & Hs2 & Hc2 & Ha2 & Hr2 & Hd2).
    exists final, w', (tr1 ++ tr2), (l1 ++ l2). split_and!.
    + rewrite (main_loop_cons _ _ _ _ _ _ Hb). exact Hl.
    + rewrite Hs2, Hs1, app_assoc. reflexivity.
    + rewrite Hc2, Hc1, app_assoc. reflexivity.
    + intros g [<-|Hg] Hext.
      * destruct (Ha1 Hext) as [ok Hin]. exists ok.
        apply in_or_app; left; exact Hin.
      * destruct (Ha2 g Hg Hext) as [ok Hin]. exists ok.
        apply in_or_app; right; exact Hin.
    + intros path [Hin|Hin]%in_app_or.
      * destruct (Hr1 _ Hin) as [e He]. exists e.
        apply in_or_app; left; exact He.
      * destruct (Hr2 _ Hin) as [e He]. exists e.
        apply in_or_app; right; exact He.
    + intros path [Hin|Hin]%in_app_or.
      * destruct (Hd1 _ Hin) as (g & e & -> & He). exists g, e.
        split; [reflexivity|]. apply in_or_app; left; exact He.
      * destruct (Hd2 _ Hin) as (g & e & -> & He). exists g, e.
        split; [reflexivity|]. apply in_or_app; right; exact He.
Qed.

Lemma save_list_succeeds processed w :
  exists w' tail lines,
    save_list processed w = (Ret tt, w') /\
    syslog w' = syslog w ++ tail /\
    console w' = console w ++ lines /\
    forall ev, In ev tail -> exists c, ev = EvWrite processed_list_file c true.
Proof.
  destruct processed as [|f rest]; simpl.
  - exists (put_lines [no_files_message] w), [], [no_files_message].
    rewrite app_nil_r. split_and!; try reflexivity. intros ev [].
  - unfold bind, write_file. rewrite writes_succeed. simpl.
    eexists. eexists. eexists. split_and!; try reflexivity.
    intros ev [<-|[]]. eauto.
Qed.
End Contained.


Section DirFacts.
Import Text IO Script.

Lemma dir_entries_mono dir (w w0 : World) f :
  files w0 = files w -> dirs w ⊆ dirs w0 ->
  In f (dir_entries dir w) -> In f (dir_entries dir w0).
Proof.
  intros Hf Hd. unfold dir_entries. rewrite Hf.
  intros [Hin|Hin]%in_app_or; apply in_or_app; [left; exact Hin|right].
  apply list_elem_of_In in Hin. apply list_elem_of_In.
  apply list_elem_of_omap in Hin as (d & Hd' & E).
  apply list_elem_of_omap. exists d. split; [|exact E].
  apply elem_of_elements. apply elem_of_elements in Hd'. set_solver.
Qed.
End DirFacts.

(** ** The batch driver: claims *)

Section RunClaims.
Import Text IO Script.
Context {P : Platform} {H : Host}.

(** C5. Write before delete: in every run of the script, each attempt
    to remove a file is an attempt on the source of some entry and comes
    after the completed write of that entry's cleaned output; a file that
    was there before the run and is gone after it is such a source, its
    output was written; and when the write of an entry's output fails, the
    run stops there with the source still in place. *)
Theorem write_before_delete (w : World) (r : result unit) (w' : World) :
  script w = (r, w') ->
  exists tr,
    syslog w' = syslog w ++ tr /\
    deletes_follow_writes tr /\
    (forall path,
       is_Some (files w !! path) -> files w' !! path = None ->
       exists filename cleaned_text,
         path = input_path_of filename /\
         In (EvRemove path true) tr /\
         In (EvWrite (output_path_of filename) cleaned_text true) tr) /\
    (forall filename cleaned_text,
       In (EvWrite (output_path_of filename) cleaned_text false) tr ->
       (exists e, r = Raise e) /\
       is_Some (files w' !! input_path_of filename)).
Proof.
  intros Hrun.
  destruct (script_run _ _ _ Hrun)
    as (setup & tr & tail & Hs & Hsetup & He & Hg & Hl & Hw & Htail).
  destruct (setup_quiet _ Hsetup) as [Hq _].
  exists (setup ++ tr ++ tail). split_and!.
  - exact Hs.
  - apply deletes_follow_writes_app;
      [apply deletes_follow_writes_quiet, Hq|].
    apply deletes_follow_writes_app; [exact Hg|].
    apply deletes_follow_writes_quiet.
    destruct Htail as [[-> _]|(pr & ok & -> & _)]; reflexivity.
  - intros path Hp Hn. pose proof (Hl path Hp Hn) as Hin.
    destruct (in_split _ _ Hin) as (before & after & E).
    destruct (Hg _ _ _ _ E) as (f & c & -> & Hc).
    exists f, c. split_and!; [reflexivity| |].
    + apply in_or_app; right; apply in_or_app; left; exact Hin.
    + apply in_or_app; right; apply in_or_app; left.
      rewrite E. apply in_or_app; left; exact Hc.
  - intros f c [Hin|[Hin|Hin]%in_app_or]%in_app_or.
    + destruct (setup_no_write _ _ _ _ Hsetup Hin).
    + exact (Hw _ _ Hin).
    + destruct Htail as [[-> _]|(pr & ok & -> & _)]; [destruct Hin|].
      destruct Hin as [E|[]]. injection E as E _ _.
      destruct (output_not_list_file f (eq_sym E)).
Qed.

(** C8, amended. The list file is opened for writing at most once in a
    run, and then as the last system call of the run, after at least one
    entry was processed; what is written is one line per processed entry,
    in processing order, replacing whatever the file held.  In a run that
    returns normally the list file is written if and only if some entry
    was processed. *)
Theorem list_file_written_at_end (w : World) (r : result unit) (w' : World) :
  script w = (r, w') ->
  exists tr,
    syslog w' = syslog w ++ tr /\
    (writes_to processed_list_file tr <= 1)%nat /\
    (forall content ok,
       In (EvWrite processed_list_file content ok) tr ->
       exists earlier processed_files,
         tr = earlier ++ [EvWrite processed_list_file content ok] /\
         content = manifest_text processed_files /\
         processed_files <> [] /\
         (forall f, In f processed_files <->
            exists c, In (EvWrite (output_path_of f) c true) earlier) /\
         (ok = true -> files w' !! processed_list_file = Some content)) /\
    (r = Ret tt ->
     (some_file_processed tr <->
      exists content, In (EvWrite processed_list_file content true) tr)).
Proof.
  intros Hrun.
  destruct (script_run _ _ _ Hrun)
    as (setup & tr & tail & Hs & Hsetup & He & Hg & Hl & Hw & Htail).
  destruct (setup_quiet _ Hsetup) as [_ Hq].
  exists (setup ++ tr ++ tail). split_and!.
  - exact Hs.
  - rewrite !writes_to_app, Hq, (loop_writes_elsewhere _ He).
    unfold writes_to.
    destruct Htail as [[-> _]|(pr & ok & -> & _)]; [simpl; lia|].
    simpl. case_bool_decide; simpl; lia.
  - intros content ok [Hin|[Hin|Hin]%in_app_or]%in_app_or.
    + destruct (setup_no_write _ _ _ _ Hsetup Hin).
    + destruct (loop_event_not_list_write _ _ _ He Hin).
    + destruct Htail as [[-> _]|(pr & ok' & -> & Hne & Hpr & Hok)];
        [destruct Hin|].
      destruct Hin as [E|[]]. injection E as <- <-.
      exists (setup ++ tr), pr. split_and!.
      * rewrite <- app_assoc. reflexivity.
      * reflexivity.
      * exact Hne.
      * intros f. rewrite Hpr. split; intros [c Hc]; exists c.
        -- apply in_or_app; right; exact Hc.
        -- apply in_app_or in Hc as [Hc|Hc]; [|exact Hc].
           destruct (setup_no_write _ _ _ _ Hsetup Hc).
      * intros ->. apply Hok.
  - intros ->. split.
    + intros (f & c & [Hin|[Hin|Hin]%in_app_or]%in_app_or).
      * destruct (setup_no_write _ _ _ _ Hsetup Hin).
      * destruct Htail as [[-> Hnone]|(pr & ok & -> & Hne & Hpr & Hok)].
        -- destruct (Hnone eq_refl _ _ Hin).
        -- destruct ok; [|destruct Hok as [e [=]]].
           exists (manifest_text pr).
           apply in_or_app; right; apply in_or_app; right; left; reflexivity.
      * destruct Htail as [[-> _]|(pr & ok & -> & _)]; [destruct Hin|].
        destruct Hin as [E|[]]. injection E as E _ _.
        destruct (output_not_list_file f (eq_sym E)).
    + intros [content [Hin|[Hin|Hin]%in_app_or]%in_app_or].
      * destruct (setup_no_write _ _ _ _ Hsetup Hin).
      * destruct (loop_event_not_list_write _ _ _ He Hin).
      * destruct Htail as [[-> _]|(pr & ok & -> & Hne & Hpr & Hok)];
          [destruct Hin|].
        destruct pr as [|f pr]; [destruct (Hne eq_refl)|].
        destruct (proj1 (Hpr f) (or_introl eq_refl)) as [c Hc].
        exists f, c. apply in_or_app; right; apply in_or_app; left; exact Hc.
Qed.
(** C10. Read-error atomicity: when reading the input raises,
    [process_file] returns [False]; no file is created, written or
    removed, the only system call made is the failed read, one line is
    printed; the turn of the loop leaves the list of processed files as it
    was and the loop goes on. *)
Theorem read_error_atomic (input_path output_path : str) (w : World)
    (e : exn) (w1 : World) :
  read_file input_path w = (Raise e, w1) ->
  exists w',
    process_file input_path output_path w = (Ret false, w') /\
    files w' = files w /\ dirs w' = dirs w /\
    syslog w' = syslog w ++ [EvRead input_path false] /\
    console w' = console w ++ [read_error_message input_path e] /\
    (forall filename processed_files rest,
       input_path = input_path_of filename ->
       output_path = output_path_of filename ->
       endswith (lit ".txt") filename = true ->
       loop_body filename processed_files w = (Ret processed_files, w') /\
       main_loop (filename :: rest) processed_files w
       = main_loop rest processed_files w').
Proof.
  intros Hr. pose proof (read_file_raises _ _ _ _ Hr) as ->.
  eexists. split; [rewrite process_file_eq, Hr; reflexivity|].
  split_and!; try reflexivity.
  intros f acc rest -> -> Hext.
  assert (Hb : loop_body f acc w =
               (Ret acc, put_lines [read_error_message (input_path_of f) e]
                           (log (EvRead (input_path_of f) false) w))).
  { rewrite loop_body_eq, Hext, process_file_eq, Hr. reflexivity. }
  split; [exact Hb | apply main_loop_cons, Hb].
Qed.

(** C7. A failed delete is not fatal: when [process_file] returned
    [True] and removing the source raises, the turn of the loop still
    returns, with the file name appended to the list of processed files,
    the output in place and the source untouched; the error is printed
    and the loop goes on
    with the remaining entries.  When the loop completes, the name is in
    the final list, and the list file, once written, has a line for
    it. *)
Theorem delete_failure_nonfatal (filename : str) (processed_files rest : list str)
    (w w1 : World) (e : exn) (w2 : World) :
  endswith (lit ".txt") filename = true ->
  process_file (input_path_of filename) (output_path_of filename) w
  = (Ret true, w1) ->
  os_remove (input_path_of filename) w1 = (Raise e, w2) ->
  exists w',
    loop_body filename processed_files w
    = (Ret (processed_files ++ [filename]), w') /\
    files w' = files w1 /\
    (exists cleaned_text,
       files w' !! output_path_of filename = Some cleaned_text) /\
    files w' !! input_path_of filename = files w !! input_path_of filename /\
    console w' = console w1 ++ [delete_error_message filename e] /\
    main_loop (filename :: rest) processed_files w
    = main_loop rest (processed_files ++ [filename]) w' /\
    (forall final w'',
       main_loop rest (processed_files ++ [filename]) w' = (Ret final, w'') ->
       In filename final /\
       forall w3, save_list final w'' = (Ret tt, w3) ->
         files w3 !! processed_list_file = Some (manifest_text final) /\
         exists above below,
           manifest_text final = above ++ filename ++ [LF] ++ below).
Proof.
  intros Hext Hp Hrm. pose proof (os_remove_raises _ _ _ _ Hrm) as ->.
  destruct (process_file_true _ _ _ _ Hp) as (text & cleaned & _ & _ & _ & Hf).
  assert (Hb : loop_body filename processed_files w =
               (Ret (processed_files ++ [filename]),
                put_lines [delete_error_message filename e]
                  (log (EvRemove (input_path_of filename) false) w1))).
  { rewrite loop_body_eq, Hext, Hp, Hrm. reflexivity. }
  eexists. split; [exact Hb|]. split_and!.
  - reflexivity.
  - exists cleaned. simpl. rewrite Hf. apply lookup_insert_eq.
  - simpl. rewrite Hf. apply lookup_insert_ne.
    intros E; exact (input_output_distinct filename (eq_sym E)).
  - reflexivity.
  - apply main_loop_cons, Hb.
  - intros final w'' Hloop.
    destruct (main_loop_run _ _ _ _ _ Hloop) as (tr & _ & _ & _ & _ & _ & _ & Hr).
    destruct (Hr _ eq_refl) as (more & -> & _).
    assert (Hin : In filename ((processed_files ++ [filename]) ++ more)).
    { apply in_or_app; left. apply in_or_app; right. left; reflexivity. }
    split; [exact Hin|]. intros w3 Hsave.
    split; [|apply manifest_text_line, Hin].
    destruct (save_list_run _ _ _ _ Hsave) as [_ Hs].
    destruct ((processed_files ++ [filename]) ++ more) as [|f fs];
      [destruct Hin|].
    destruct Hs as (ok & _ & _ & _ & Hok).
    destruct ok; [|destruct Hok as [e' [=]]].
    destruct Hok as [_ ->]. apply lookup_insert_eq.
Qed.
(** The part of the error policy that the code keeps: errors of reading
    a source and of removing a source are caught and printed, and never
    stop the run.  On a machine where the tokenizer answers and writes
    succeed, the script returns normally whatever reads and removals do,
    every [.txt] entry of the input folder is attempted, and every failed
    read or removal has its message on the console.  The second part
    records what the code does otherwise: when the tokenizer fails on an
    entry, or its output cannot be written, the exception leaves the loop
    at that entry with the source in place. *)
Theorem read_and_delete_errors_contained :
  (forall w : World,
     pipeline_ready = true ->
     (forall text, is_Some (nlp text)) ->
     (forall path, write_fault path = WriteDone) ->
     (forall path, makedirs_fault path = None) ->
     exists w' tr,
       script w = (Ret tt, w') /\
       syslog w' = syslog w ++ tr /\
       (forall f, In f (dir_entries input_folder w) ->
          endswith (lit ".txt") f = true ->
          exists ok, In (EvRead (input_path_of f) ok) tr) /\
       (forall path, In (EvRead path false) tr ->
          exists e, In (read_error_message path e) (console w')) /\
       (forall path, In (EvRemove path false) tr ->
          exists g e, path = input_path_of g /\
                      In (delete_error_message g e) (console w'))) /\
  (forall (f : str) (rest acc : list str) (w : World) (text : str),
     endswith (lit ".txt") f = true ->
     read_fault (input_path_of f) = None ->
     files w !! input_path_of f = Some text ->
     Normalizer.clean_persian_text text = None \/
     write_fault (output_path_of f) <> WriteDone ->
     exists e w',
       main_loop (f :: rest) acc w = (Raise e, w') /\
       files w' !! input_path_of f = Some text /\
       forall ok, ~ In (EvRemove (input_path_of f) ok)
                     (drop (length (syslog w)) (syslog w'))).
Proof.
  split.
  - intros w Hready Hnlp Hwr Hmk. unfold script. rewrite Hready.
    destruct (main w) as [r w'] eqn:Hm. revert r w' Hm.
    apply main_cases.
    + intros e w' Hf. rewrite Hmk in Hf. discriminate Hf.
    + intros setup w0 rl w1 r w' Hsetup Hs0 Hf0 Hd0 Hc0 Hloop Hrest.
      destruct (main_loop_contained Hnlp Hwr (dir_entries input_folder w0) [] w0)
        as (final & w1' & tr & lines & Hl & Hs1 & Hc1 & Ha & Hr & Hd).
      rewrite Hl in Hloop. injection Hloop as <- <-.
      destruct (save_list_succeeds Hwr final w1')
        as (w2 & tail & lines2 & Hsv & Hs2 & Hc2 & Htail).
      rewrite Hsv in Hrest. injection Hrest as <- <-.
      assert (Hset : forall ev, In ev setup ->
                ev = EvListdir input_folder \/
                ev = EvMakedirs output_folder true).
      { intros ev Hin. destruct Hsetup as [->| ->]; simpl in Hin; intuition auto. }
      exists w2, (setup ++ tr ++ tail). split_and!.
      * reflexivity.
      * rewrite Hs2, Hs1, Hs0, <- !app_assoc. reflexivity.
      * intros f Hin Hext.
        destruct (Ha f (dir_entries_mono _ _ _ _ Hf0 Hd0 Hin) Hext) as [ok Hok].
        exists ok. apply in_or_app; right; apply in_or_app; left; exact Hok.
      * intros path [Hin|[Hin|Hin]%in_app_or]%in_app_or.
        -- destruct (Hset _ Hin) as [E|E]; discriminate E.
        -- destruct (Hr _ Hin) as [e He]. exists e. rewrite Hc2, Hc1.
           apply in_or_app; left; apply in_or_app; right; exact He.
        -- destruct (Htail _ Hin) as [c E]; discriminate E.
      * intros path [Hin|[Hin|Hin]%in_app_or]%in_app_or.
        -- destruct (Hset _ Hin) as [E|E]; discriminate E.
        -- destruct (Hd _ Hin) as (g & e & -> & He). exists g, e.
           split; [reflexivity|]. rewrite Hc2, Hc1.
           apply in_or_app; left; apply in_or_app; right; exact He.
        -- destruct (Htail _ Hin) as [c E]; discriminate E.
  - intros f rest acc w text Hext Hrf Hp Hfail.
    destruct (loop_body f acc w) as [r w'] eqn:Hb.
    assert (Hq : exists e, r = Raise e /\
                 files w' !! input_path_of f = Some text /\
                 forall ok, ~ In (EvRemove (input_path_of f) ok)
                               (drop (length (syslog w)) (syslog w'))).
    { revert r w' Hb. apply loop_body_cases.
      - intros E. rewrite E in Hext. discriminate Hext.
      - intros e w' _ Hr. unfold read_file in Hr. rewrite Hrf, Hp in Hr.
        discriminate Hr.
      - intros text' msg w' _ _ Hp' _ Hf _ Hs. eexists. split; [reflexivity|].
        rewrite Hf, Hs, drop_app_length. split; [exact Hp|].
        intros ok [E|[]]; discriminate E.
      - intros text' cleaned e w' _ _ Hp' _ _ Hf _ Hs. eexists.
        split; [reflexivity|].
        rewrite Hf, Hs, drop_app_length. split; [exact Hp|].
        intros ok [E|[E|[]]]; discriminate E.
      - intros text' cleaned n e w' _ _ Hp' _ _ Hf _ Hs. eexists.
        split; [reflexivity|].
        rewrite Hf, Hs, drop_app_length. split.
        + rewrite lookup_insert_ne; [exact Hp|].
          intros E; exact (input_output_distinct f (eq_sym E)).
        + intros ok [E|[E|[]]]; discriminate E.
      - intros text' cleaned w' _ _ Hp' Hc Hw. exfalso.
        rewrite Hp in Hp'. injection Hp' as <-.
        destruct Hfail as [Hn|Hn]; [congruence | exact (Hn Hw)].
      - intros text' cleaned e w' _ _ Hp' Hc Hw. exfalso.
        rewrite Hp in Hp'. injection Hp' as <-.
        destruct Hfail as [Hn|Hn]; [congruence | exact (Hn Hw)]. }
    destruct Hq as (e & -> & Hq). exists e, w'.
    split; [apply main_loop_aborts, Hb | exact Hq].
Qed.
End RunClaims.

(** ** The claims on concrete runs *)

Section Runs.
Import Text IO Script Demo.

(** The sample inputs of the specification, with the whitespace
    tokenizer. *)
Example scenario_underscore_hyphen :
  @Normalizer.clean_persian_text sample_platform salam_donya
  = Some salam_donya_clean.
Proof. vm_compute; reflexivity. Qed.

Example scenario_empty :
  @Normalizer.clean_persian_text sample_platform [] = Some [].
Proof. reflexivity. Qed.

Example scenario_tatweel :
  @Normalizer.clean_persian_text sample_platform amuzesh_tatweel
  = Some [0x622; 0x645; 0x648; 0x632; 0x634].
Proof. vm_compute; reflexivity. Qed.

Example scenario_two_lines :
  @Normalizer.clean_persian_text sample_platform two_lines
  = Some [0x62E; 0x637; 32; 0x627; 0x648; 0x644; 32; 0x62E; 0x637; 32;
          0x62F; 0x648; 0x645].
Proof. vm_compute; reflexivity. Qed.

(** The tokenizer decides where the joiner spaces go. *)
Example tokens_shape_the_output :
  @Normalizer.clean_persian_text sample_platform (lit "a. b")
  = Some (lit "a. b") /\
  @Normalizer.clean_persian_text punctuation_platform (lit "a. b")
  = Some (lit "a . b").
Proof. split; vm_compute; reflexivity. Qed.

(** The number printed with a diff entry is its position in the diff,
    not the count of printed entries: here the first printed entry is
    number 3. *)
Example report_counts_every_entry :
  printed_entries (prefix_diff three_lines three_lines_cleaned)
  = [(3%nat, lit "- c-d"); (4%nat, lit "+ cd")].
Proof. vm_compute; reflexivity. Qed.

Lemma clean_output_charset_witness :
  @Normalizer.clean_persian_text sample_platform salam_donya
  = Some salam_donya_clean /\
  forall c, In c salam_donya_clean ->
    c <> TATWEEL /\ c <> HYPHEN /\ c <> UNDERSCORE /\
    (@Normalizer.is_word sample_platform c = true \/ is_space c = true
     \/ c = PERIOD \/ c = PERSIAN_COMMA \/ c = COLON).
Proof.
  split; [vm_compute; reflexivity|].
  apply (@clean_output_charset sample_platform salam_donya).
  vm_compute; reflexivity.
Defined.

Lemma clean_output_whitespace_witness :
  @Normalizer.clean_persian_text sample_platform text_a
  = Some (lit "one twothree.") /\
  (length (splitlines (lit "one twothree.")) <= 1)%nat /\
  is_space 111 = false /\ is_space 46 = false.
Proof.
  split; [vm_compute; reflexivity|].
  destruct (@clean_output_whitespace sample_platform text_a
              (lit "one twothree.")) as (_ & _ & _ & Hline & Hfirst & Hlast).
  - vm_compute; reflexivity.
  - split_and!.
    + exact Hline.
    + apply (Hfirst 111 (lit "ne twothree.")). reflexivity.
    + apply (Hlast 46 (lit "one twothree")). reflexivity.
Defined.

Lemma normalizer_total_witness :
  exists out,
    @Script.clean_persian_text sample_platform [] two_books
    = (Ret out, two_books) /\ out = [].
Proof.
  destruct (@normalizer_total sample_platform [] [] two_books eq_refl)
    as (out & Hrun & _ & _ & Hempty & _).
  exists out. split; [exact Hrun | apply Hempty; reflexivity].
Defined.

Lemma clean_idempotent_witness :
  @Normalizer.clean_persian_text sample_platform text_b = Some text_b /\
  @Normalizer.clean_persian_text sample_platform
    (lit "one twothree.") = Some (lit "one twothree.").
Proof.
  split.
  - apply (@clean_idempotent sample_platform text_b text_b);
      vm_compute; reflexivity.
  - destruct (@clean_idempotent sample_platform text_a (lit "one twothree."))
      as (_ & Hjoin & _); [vm_compute; reflexivity|].
    apply (Hjoin [[lit "one"; lit "twothree."]]); vm_compute; reflexivity.
Defined.

Lemma write_before_delete_witness :
  exists tr,
    syslog (snd (@script sample_platform calm_host two_books))
    = syslog two_books ++ tr /\
    @deletes_follow_writes calm_host tr.
Proof.
  destruct (@write_before_delete sample_platform calm_host two_books
              (fst (@script sample_platform calm_host two_books))
              (snd (@script sample_platform calm_host two_books)))
    as (tr & Hs & Hg & _).
  - vm_compute; reflexivity.
  - exists tr. split; assumption.
Defined.

Lemma list_file_written_at_end_witness :
  exists tr,
    syslog (snd (@script sample_platform calm_host two_books))
    = syslog two_books ++ tr /\
    (@writes_to (@processed_list_file calm_host) tr <= 1)%nat.
Proof.
  destruct (@list_file_written_at_end sample_platform calm_host two_books
              (fst (@script sample_platform calm_host two_books))
              (snd (@script sample_platform calm_host two_books)))
    as (tr & Hs & Hg & _).
  - vm_compute; reflexivity.
  - exists tr. split; assumption.
Defined.

Lemma read_error_atomic_witness :
  exists w',
    @process_file sample_platform unreadable_host a_txt edited_a_txt two_books
    = (Ret false, w') /\
    files w' = files two_books.
Proof.
  destruct (@read_error_atomic sample_platform unreadable_host
              a_txt edited_a_txt two_books denied
              (snd (@read_file unreadable_host a_txt two_books)))
    as (w' & Hp & Hf & _).
  - vm_compute; reflexivity.
  - exists w'. split; assumption.
Defined.

Lemma delete_failure_nonfatal_witness :
  exists w',
    @loop_body sample_platform sticky_host (lit "a.txt") [] two_books
    = (Ret [lit "a.txt"], w').
Proof.
  destruct (@delete_failure_nonfatal sample_platform sticky_host
              (lit "a.txt") [] [lit "b.txt"] two_books
              (snd (@process_file sample_platform sticky_host a_txt
                      edited_a_txt two_books))
              denied
              (snd (@os_remove sticky_host a_txt
                 (snd (@process_file sample_platform sticky_host a_txt
                      edited_a_txt two_books)))))
    as (w' & Hb & _).
  - vm_compute; reflexivity.
  - vm_compute; reflexivity.
  - vm_compute; reflexivity.
  - exists w'. exact Hb.
Defined.

Lemma whitespace_nlp_total text : is_Some (whitespace_nlp text).
Proof. unfold whitespace_nlp. destruct (split_from [] text); eauto. Qed.

Lemma read_and_delete_errors_contained_witness :
  exists w' tr,
    @script sample_platform unreadable_host two_books = (Ret tt, w') /\
    syslog w' = syslog two_books ++ tr /\
    exists ok, In (EvRead a_txt ok) tr.
Proof.
  destruct (proj1 (@read_and_delete_errors_contained sample_platform
                     unreadable_host) two_books)
    as (w' & tr & Hrun & Hs & Hall & _).
  - reflexivity.
  - exact whitespace_nlp_total.
  - intros path; reflexivity.
  - intros path; reflexivity.
  - exists w', tr. split_and!; [exact Hrun | exact Hs |].
    apply (Hall (lit "a.txt")); vm_compute; auto.
Defined.

(** C6. The code on an input where the policy of C6 asks for the run to
    go on: the pipeline is ready and the tokenizer answers on every text,
    the input folder lists [b.txt] and then [a.txt], and the output of
    [b.txt] cannot be opened for writing.  The write of lines 68-69 has no
    [try]/[except], unlike the read and the removal: the error ends the
    run; [a.txt], still to come in the listing, is never read and no
    output is made for it. *)
Lemma write_error_aborts_batch :
  @pipeline_ready sample_platform = true /\
  (forall text, is_Some (@nlp sample_platform text)) /\
  dir_entries (lit "/books") two_books = [lit "b.txt"; lit "a.txt"] /\
  exists w',
    @script sample_platform full_disk_host two_books = (Raise disk_full, w') /\
    syslog w' =
      [EvMakedirs (lit "/books/editedbooktext") true;
       EvListdir (lit "/books");
       EvRead b_txt true;
       EvWrite edited_b_txt (lit "x: y") false] /\
    files w' !! a_txt = Some text_a /\
    files w' !! edited_a_txt = None.
Proof.
  split; [reflexivity|]. split; [exact whitespace_nlp_total|].
  split; [vm_compute; reflexivity|].
  eexists. split_and!; vm_compute; reflexivity.
Qed.

(** C8 as stated fails: [b.txt] is processed (output written, source
    removed), then the run ends at [a.txt], in the first run because the
    tokenizer fails on its text, in the second because its output cannot
    be written; the list file is never opened. *)
Lemma aborted_run_writes_no_list :
  (exists w',
     @script fragile_platform calm_host two_books
     = (Raise (PipelineError (lit "tokenizer failed")), w') /\
     syslog w' =
       [EvMakedirs (lit "/books/editedbooktext") true;
        EvListdir (lit "/books");
        EvRead b_txt true;
        EvWrite edited_b_txt (lit "x: y") true;
        EvRemove b_txt true;
        EvRead a_txt true] /\
     @some_file_processed calm_host (syslog w') /\
     files w' !! b_txt = None /\
     files w' !! edited_b_txt = Some (lit "x: y") /\
     @writes_to (@processed_list_file calm_host) (syslog w') = 0%nat /\
     files w' !! @processed_list_file calm_host = None) /\
  (exists w',
     @script sample_platform late_full_disk_host two_books
     = (Raise disk_full, w') /\
     syslog w' =
       [EvMakedirs (lit "/books/editedbooktext") true;
        EvListdir (lit "/books");
        EvRead b_txt true;
        EvWrite edited_b_txt (lit "x: y") true;
        EvRemove b_txt true;
        EvRead a_txt true;
        EvWrite edited_a_txt (lit "one twothree.") false] /\
     @some_file_processed late_full_disk_host (syslog w') /\
     files w' !! b_txt = None /\
     files w' !! edited_b_txt = Some (lit "x: y") /\
     @writes_to (@processed_list_file late_full_disk_host) (syslog w') = 0%nat /\
     files w' !! @processed_list_file late_full_disk_host = None).
Proof.
  split.
  - eexists. split_and!;
      [vm_compute; reflexivity | vm_compute; reflexivity |
      | vm_compute; reflexivity..].
    exists (lit "b.txt"), (lit "x: y"). vm_compute. auto 10.
  - eexists. split_and!;
      [vm_compute; reflexivity | vm_compute; reflexivity |
      | vm_compute; reflexivity..].
    exists (lit "b.txt"), (lit "x: y"). vm_compute. auto 10.
Qed.

End Runs.

(** * Further properties *)

(** ** What the Normalizer keeps *)

Section MoreNormalizer.
Import Text Normalizer.
Context {P : Platform}.

Lemma filter_all_space s :
  forallb is_space s = true -> List.filter nonspace s = [].
Proof.
  induction s as [|c s IH]; simpl; [reflexivity|].
  intros [Hc Hs]%andb_prop. unfold nonspace at 1. rewrite Hc. simpl. auto.
Qed.

Lemma strip_decomp_space s :
  exists pre suf,
    s = pre ++ strip s ++ suf /\
    forallb is_space pre = true /\ forallb is_space suf = true.
Proof.
  destruct (lstrip_decomp s) as [pre [E F]].
  destruct (rstrip_decomp (lstrip s)) as [suf [E' F']].
  exists pre, suf. unfold strip. rewrite <- E'. auto.
Qed.

Lemma strip_nonspace s :
  List.filter nonspace (strip s) = List.filter nonspace s.
Proof.
  destruct (strip_decomp_space s) as (pre & suf & E & Hp & Hs).
  rewrite E at 2. rewrite !List.filter_app.
  rewrite (filter_all_space _ Hp), (filter_all_space _ Hs), app_nil_r.
  reflexivity.
Qed.

Lemma strip_length s : (length (strip s) <= length s)%nat.
Proof.
  destruct (strip_decomp_space s) as (pre & suf & E & _).
  rewrite E at 2. rewrite !length_app. lia.
Qed.

Lemma squeeze_nonspace b s :
  List.filter nonspace (re_sub_runs_from is_space [SPACE] b s)
  = List.filter nonspace s.
Proof.
  revert b; induction s as [|c s IH]; intros b; simpl; [reflexivity|].
  unfold nonspace at 2. destruct (is_space c) eqn:Hc; simpl.
  - destruct b; simpl; apply IH.
  - unfold nonspace at 1. rewrite Hc. simpl. f_equal. apply IH.
Qed.

Lemma squeeze_length b s :
  (length (re_sub_runs_from is_space [SPACE] b s) <= length s)%nat.
Proof.
  revert b; induction s as [|c s IH]; intros b; simpl; [lia|].
  pose proof (IH true). pose proof (IH false).
  destruct (is_space c); [destruct b|]; simpl; lia.
Qed.

Lemma filter_length_le {A} (f : A -> bool) l :
  (length (List.filter f l) <= length l)%nat.
Proof. induction l as [|x l IH]; simpl; [lia|]. destruct (f x); simpl; lia. Qed.

Lemma clean_joined_content s :
  List.filter nonspace (clean_joined s)
  = List.filter (fun c => char_ok c && nonspace c) s.
Proof.
  unfold clean_joined, re_sub_runs.
  rewrite strip_nonspace, squeeze_nonspace.
  rewrite re_sub_runs_from_nil, re_sub_each_nil.
  induction s as [|c s IH]; simpl; [reflexivity|].
  unfold char_ok at 1. destruct (special c); simpl; [exact IH|].
  destruct (allowed c); simpl; [|exact IH].
  destruct (nonspace c); simpl; [f_equal|]; exact IH.
Qed.

Lemma clean_joined_length s : (length (clean_joined s) <= length s)%nat.
Proof.
  unfold clean_joined, re_sub_runs.
  rewrite re_sub_runs_from_nil, re_sub_each_nil.
  etransitivity; [apply strip_length|].
  etransitivity; [apply squeeze_length|].
  etransitivity; [apply filter_length_le|]. apply filter_length_le.
Qed.

Lemma filter_join_space (f : Z -> bool) toks :
  f SPACE = false ->
  List.filter f (join [SPACE] toks) = List.filter f (concat toks).
Proof.
  intros Hf. induction toks as [|t [|t' toks] IH]; simpl in *.
  - reflexivity.
  - rewrite app_nil_r. reflexivity.
  - rewrite !List.filter_app. simpl. rewrite Hf. simpl. f_equal.
    rewrite <- List.filter_app. exact IH.
Qed.

(** X1. The cleaned text holds, white space apart, exactly the characters
    of the tokens that are neither in the first class nor outside the
    second, in their order; and it is no longer than the joined tokens. *)
Theorem clean_keeps_surviving_characters (text out : str) (doc : list (list str)) :
  nlp text = Some doc ->
  clean_persian_text text = Some out ->
  List.filter (fun c => negb (is_space c)) out
  = List.filter (fun c => negb (special c) && allowed c && negb (is_space c))
      (concat (concat doc)) /\
  (length out <= length (join [SPACE] (concat doc)))%nat.
Proof.
  unfold clean_persian_text. intros -> [= <-]. unfold normalize, tokens_of.
  split; [|apply clean_joined_length].
  etransitivity; [apply clean_joined_content|].
  apply filter_join_space. unfold char_ok. rewrite special_space. simpl.
  rewrite andb_false_r. reflexivity.
Qed.
End MoreNormalizer.

Section Words.
Import Text Normalizer Demo.
Context {P : Platform}.

Lemma split_from_words cur s :
  forallb nonspace cur = true ->
  List.Forall (fun w => w <> [] /\ forallb nonspace w = true) (split_from cur s).
Proof.
  revert cur; induction s as [|c s IH]; intros cur Hcur; simpl.
  - destruct cur as [|d cur]; [constructor|]. repeat constructor.
    + intros E. apply (f_equal (@length Z)) in E.
      rewrite length_rev in E. discriminate E.
    + rewrite forallb_forall in *. intros x Hx. apply Hcur, in_rev, Hx.
  - destruct (is_space c) eqn:Hc.
    + destruct cur as [|d cur]; [apply IH; reflexivity|].
      constructor; [|apply IH; reflexivity]. split.
      * intros E. apply (f_equal (@length Z)) in E.
        rewrite length_rev in E. discriminate E.
      * rewrite forallb_forall in *. intros x Hx. apply Hcur, in_rev, Hx.
    + apply IH. simpl. unfold nonspace at 1. rewrite Hc. exact Hcur.
Qed.

Lemma join_words_edges ws :
  List.Forall (fun w => w <> [] /\ forallb nonspace w = true) ws ->
  edge_ok (join [SPACE] ws) = true /\ edge_ok (rev (join [SPACE] ws)) = true.
Proof.
  induction 1 as [|w ws [Hne Hw] Hws [IH1 IH2]]; [split; reflexivity|].
  assert (Hhead : edge_ok w = true).
  { destruct w as [|c w]; [reflexivity|]. simpl in *.
    apply andb_prop in Hw as [Hc _]. exact Hc. }
  assert (Hlast : edge_ok (rev w) = true).
  { destruct (rev w) as [|c r] eqn:E; [reflexivity|]. simpl.
    rewrite forallb_forall in Hw. apply Hw, in_rev. rewrite E. left; reflexivity. }
  destruct ws as [|w' ws]; [split; assumption|].
  change (join [SPACE] (w :: w' :: ws)) with (w ++ [SPACE] ++ join [SPACE] (w' :: ws)).
  split.
  - destruct w as [|c w]; [destruct (Hne eq_refl)|]. exact Hhead.
  - rewrite !rev_app_distr.
    destruct (rev (join [SPACE] (w' :: ws))) as [|c r] eqn:E; [|exact IH2].
    exfalso. apply (f_equal (@length Z)) in E. rewrite length_rev in E.
    inversion Hws as [|? ? [Hne' _] _]; subst.
    destruct w' as [|c w']; [destruct (Hne' eq_refl)|].
    destruct ws; simpl in E; discriminate E.
Qed.

Lemma lstrip_all_space a b :
  forallb is_space a = true -> lstrip (a ++ b) = lstrip b.
Proof.
  induction a as [|c a IH]; simpl; [reflexivity|].
  intros [Hc Ha]%andb_prop. rewrite Hc. auto.
Qed.

Lemma lstrip_nil_all_space a : forallb is_space a = true -> lstrip a = [].
Proof.
  intros Ha. rewrite <- (app_nil_r a). rewrite lstrip_all_space by exact Ha.
  reflexivity.
Qed.

Lemma rstrip_all_space a b :
  forallb is_space b = true -> rstrip (a ++ b) = rstrip a.
Proof.
  intros Hb. unfold rstrip. rewrite rev_app_distr, lstrip_all_space; [reflexivity|].
  rewrite forallb_forall in *. intros x Hx. apply Hb, in_rev, Hx.
Qed.

Lemma strip_padded lead body trail :
  forallb is_space lead = true -> forallb is_space trail = true ->
  edge_ok body = true -> edge_ok (rev body) = true ->
  strip (lead ++ body ++ trail) = body.
Proof.
  intros Hl Ht H1 H2. unfold strip. rewrite lstrip_all_space by exact Hl.
  destruct body as [|c body].
  - simpl. rewrite (lstrip_nil_all_space _ Ht). reflexivity.
  - rewrite lstrip_fixed by exact H1.
    rewrite rstrip_all_space by exact Ht. apply rstrip_fixed, H2.
Qed.

Lemma squeeze_words b cur s :
  forallb nonspace cur = true -> (b = true -> cur = []) ->
  exists lead trail,
    forallb is_space lead = true /\ forallb is_space trail = true /\
    (b = true \/ cur <> [] -> lead = []) /\
    rev cur ++ re_sub_runs_from is_space [SPACE] b s
    = lead ++ join [SPACE] (split_from cur s) ++ trail.
Proof.
  revert b cur; induction s as [|c s IH]; intros b cur Hcur Hb; simpl.
  - exists [], []. split_and!; auto.
    destruct cur; simpl; rewrite ?app_nil_r; reflexivity.
  - destruct (is_space c) eqn:Hc.
    + destruct b.
      * rewrite (Hb eq_refl) in *. simpl.
        destruct (IH true [] eq_refl (fun _ => eq_refl))
          as (lead & trail & Hl & Ht & Hn & E).
        exists lead, trail. split_and!; auto.
      * destruct (IH true [] eq_refl (fun _ => eq_refl))
          as (lead & trail & Hl & Ht & Hn & E).
        rewrite (Hn (or_introl eq_refl)) in *. simpl in E.
        destruct cur as [|d cur].
        -- exists [SPACE], trail. split_and!.
           ++ reflexivity.
           ++ exact Ht.
           ++ intros [D|N]; [discriminate D | destruct (N eq_refl)].
           ++ simpl. rewrite E. reflexivity.
        -- destruct (split_from [] s) as [|w ws] eqn:Ews.
           ++ exists [], (SPACE :: trail). split_and!; auto.
              simpl in *. rewrite E. reflexivity.
           ++ exists [], trail. split_and!; auto.
              change (join [SPACE] (rev (d :: cur) :: w :: ws))
                with (rev (d :: cur) ++ [SPACE] ++ join [SPACE] (w :: ws)).
              simpl app at 1. rewrite E. simpl.
              rewrite <- !app_assoc. reflexivity.
    + destruct (IH false (c :: cur)) as (lead & trail & Hl & Ht & Hn & E).
      * simpl. unfold nonspace at 1. rewrite Hc. exact Hcur.
      * discriminate.
      * exists lead, trail. split_and!.
        -- exact Hl.
        -- exact Ht.
        -- intros _. apply Hn. right; discriminate.
        -- rewrite <- E. simpl. rewrite <- app_assoc. reflexivity.
Qed.

Lemma filter_char_ok s :
  List.filter (fun c => negb (negb (allowed c)))
    (List.filter (fun c => negb (special c)) s)
  = List.filter char_ok s.
Proof.
  induction s as [|c s IH]; simpl; [reflexivity|]. unfold char_ok at 1.
  destruct (special c); simpl; [exact IH|].
  destruct (allowed c); simpl; [f_equal|]; exact IH.
Qed.

(** X2. The cleaned text is what [' '.join(kept.split())] gives, [kept]
    being the joined tokens without the characters the two substitutions
    delete: its words are the white-space separated words of [kept]. *)
Theorem clean_joins_surviving_words (text out : str) (doc : list (list str)) :
  nlp text = Some doc ->
  clean_persian_text text = Some out ->
  out = join [SPACE]
          (split_from []
             (List.filter (fun c => negb (special c) && allowed c)
                (join [SPACE] (concat doc)))).
Proof.
  unfold clean_persian_text. intros -> [= <-].
  unfold normalize, tokens_of, clean_joined, re_sub_runs.
  rewrite re_sub_runs_from_nil, re_sub_each_nil, filter_char_ok.
  set (kept := List.filter char_ok _).
  destruct (squeeze_words false [] kept eq_refl) as (lead & trail & Hl & Ht & _ & E);
    [discriminate|].
  simpl in E. rewrite E.
  destruct (join_words_edges _ (split_from_words [] kept eq_refl)) as [H1 H2].
  apply strip_padded; assumption.
Qed.
End Words.

(** ** Lines *)

Section Lines.
Import Text Normalizer IO Script.
Context {P : Platform} {H : Host}.

Lemma splitlines_from_one_line cur s :
  (forall c, In c s -> is_linebreak c = false) ->
  splitlines_from cur s
  = match rev cur ++ s with [] => [] | line => [line] end.
Proof.
  revert cur; induction s as [|c s IH]; intros cur Hs; simpl.
  - rewrite app_nil_r. destruct cur as [|d cur]; [reflexivity|].
    destruct (rev (d :: cur)) eqn:E; [|reflexivity].
    apply (f_equal (@length Z)) in E. rewrite length_rev in E. discriminate E.
  - rewrite (Hs c) by (left; reflexivity).
    rewrite IH by (intros d Hd; apply Hs; right; exact Hd).
    simpl. rewrite <- app_assoc. reflexivity.
Qed.

Lemma splitlines_from_text_line cur name rest :
  (forall c, In c name -> is_linebreak c = false) ->
  splitlines_from cur (name ++ LF :: rest)
  = (rev cur ++ name) :: splitlines_from [] rest.
Proof.
  revert cur; induction name as [|c name IH]; intros cur Hn; simpl.
  - rewrite app_nil_r. destruct rest; reflexivity.
  - rewrite (Hn c) by (left; reflexivity).
    rewrite IH by (intros d Hd; apply Hn; right; exact Hd).
    simpl. rewrite <- app_assoc. reflexivity.
Qed.

Lemma cleaned_no_linebreak (s : str) :
  cleaned_text_ok s = true -> forall c, In c s -> is_linebreak c = false.
Proof.
  unfold cleaned_text_ok. intros Hok c Hc.
  apply andb_prop in Hok as [Hok _]. apply andb_prop in Hok as [Hok _].
  apply andb_prop in Hok as [Hok _]. apply andb_prop in Hok as [_ Hasc].
  rewrite forallb_forall in Hasc. specialize (Hasc c Hc).
  destruct (is_linebreak c) eqn:E; [|reflexivity].
  apply linebreak_is_space in E as [E N]. unfold space_is_ascii in Hasc.
  rewrite E in Hasc. simpl in Hasc. apply Z.eqb_eq in Hasc. contradiction.
Qed.

(** X3. Whatever the original text, the diff is computed against a
    one-element list: a text returned by [clean_persian_text] is never
    split, and the empty one is passed as one empty line. *)
Theorem cleaned_side_is_one_line (text original cleaned : str) :
  Normalizer.clean_persian_text text = Some cleaned ->
  diff_of original cleaned = ndiff (splitlines original) [cleaned].
Proof.
  intros Hc. unfold diff_of, splitlines.
  rewrite (splitlines_from_one_line [] cleaned).
  - simpl. destruct cleaned; reflexivity.
  - apply cleaned_no_linebreak, (clean_persian_text_ok text), Hc.
Qed.

(** X4. Reading the text of the list file back line by line gives the
    processed names, in order, provided no name holds a line-break
    character. *)
Theorem list_file_reads_back (processed_files : list str) :
  (forall name c, In name processed_files -> In c name -> is_linebreak c = false) ->
  splitlines (manifest_text processed_files) = processed_files.
Proof.
  unfold splitlines. induction processed_files as [|name rest IH]; intros Hn.
  - reflexivity.
  - unfold manifest_text. simpl. rewrite <- app_assoc. simpl.
    rewrite splitlines_from_text_line by (intros c; apply Hn; left; reflexivity).
    simpl. f_equal. apply IH. intros n c Hin. apply Hn. right; exact Hin.
Qed.
End Lines.

(** ** The stages of a run *)

Section Stages.
Import Text IO Script.
Context {P : Platform} {H : Host}.

Lemma main_stages w (Q : result unit -> World -> Prop) :
  (forall e,
     ~ (is_Some (files w !! output_folder) \/ output_folder ∈ dirs w) ->
     makedirs_fault output_folder = Some e ->
     Q (Raise e) (log (EvMakedirs output_folder false) w)) ->
  (forall w0 rl w1 r w',
     ((is_Some (files w !! output_folder) \/ output_folder ∈ dirs w) /\ w0 = w) \/
     (~ (is_Some (files w !! output_folder) \/ output_folder ∈ dirs w) /\
      makedirs_fault output_folder = None /\
      w0 = log (EvMakedirs output_folder true) (add_dir output_folder w)) ->
     main_loop (dir_entries input_folder w0) []
       (log (EvListdir input_folder) w0) = (rl, w1) ->
     match rl with
     | Raise e => r = Raise e /\ w' = w1
     | Ret processed => save_list processed w1 = (r, w')
     end ->
     Q r w') ->
  forall r w', main w = (r, w') -> Q r w'.
Proof.
  intros Hmk Hrun r w'. unfold main, bind at 1, os_path_exists.
  unfold bind at 1.
  destruct (bool_decide (is_Some (files w !! output_folder))
            || bool_decide (output_folder ∈ dirs w)) eqn:Hpresent; simpl.
  - assert (Hp : is_Some (files w !! output_folder) \/ output_folder ∈ dirs w).
    { apply orb_true_iff in Hpresent as [E|E];
        apply bool_decide_eq_true in E; auto. }
    unfold bind at 1, os_listdir. unfold bind at 1.
    destruct (main_loop _ [] _) as [[processed|e] w1] eqn:Hl.
    + intros Hs. apply (Hrun w _ _ _ _ (or_introl (conj Hp eq_refl)) Hl Hs).
    + intros [= <- <-].
      apply (Hrun w _ _ _ _ (or_introl (conj Hp eq_refl)) Hl (conj eq_refl eq_refl)).
  - assert (Hp : ~ (is_Some (files w !! output_folder) \/ output_folder ∈ dirs w)).
    { apply orb_false_iff in Hpresent as [E1 E2].
      apply bool_decide_eq_false in E1, E2. tauto. }
    unfold os_makedirs.
    destruct (makedirs_fault output_folder) as [e|] eqn:Hmf in |- *.
    + intros [= <- <-]. apply Hmk; assumption.
    + unfold bind at 1, os_listdir. unfold bind at 1.
      destruct (main_loop _ [] _) as [[processed|e] w1] eqn:Hl.
      * intros Hs.
        apply (Hrun _ _ _ _ _ (or_intror (conj Hp (conj Hmf eq_refl))) Hl Hs).
      * intros [= <- <-].
        apply (Hrun _ _ _ _ _ (or_intror (conj Hp (conj Hmf eq_refl))) Hl
                 (conj eq_refl eq_refl)).
Qed.

Lemma main_loop_skips names acc w :
  (forall f, In f names -> endswith (lit ".txt") f = false) ->
  main_loop names acc w = (Ret acc, w).
Proof.
  induction names as [|f rest IH]; intros Hn; simpl; [reflexivity|].
  unfold bind, loop_body. rewrite (Hn f) by (left; reflexivity). simpl.
  apply IH. intros g Hg. apply Hn. right; exact Hg.
Qed.

(** What the loop reads, writes and removes. *)
Lemma main_loop_scope names acc w r w' :
  main_loop names acc w = (r, w') ->
  exists tr,
    syslog w' = syslog w ++ tr /\
    (forall q c ok, In (EvWrite q c ok) tr ->
       Normalizer.cleaned_text_ok c = true /\
       exists f, In f names /\ endswith (lit ".txt") f = true /\
                 q = output_path_of f) /\
    (forall path ok, In (EvRead path ok) tr \/ In (EvRemove path ok) tr ->
       exists f, In f names /\ endswith (lit ".txt") f = true /\
                 path = input_path_of f).
Proof.
  revert acc w; induction names as [|f rest IH]; intros acc w; simpl.
  - intros [= <- <-]. exists []. rewrite app_nil_r. split_and!.
    + reflexivity.
    + intros q c ok [].
    + intros path ok [[]|[]].
  - unfold bind. destruct (loop_body f acc w) as [r1 w1] eqn:Hb. intros Hrest.
    assert (Hturn : exists tr1,
      syslog w1 = syslog w ++ tr1 /\
      (forall q c ok, In (EvWrite q c ok) tr1 ->
         Normalizer.cleaned_text_ok c = true /\
         endswith (lit ".txt") f = true /\ q = output_path_of f) /\
      (forall path ok, In (EvRead path ok) tr1 \/ In (EvRemove path ok) tr1 ->
         endswith (lit ".txt") f = true /\ path = input_path_of f)).
    { clear Hrest. revert r1 w1 Hb. apply loop_body_cases.
      - intros _. exists []. rewrite app_nil_r. split_and!; [reflexivity| |].
        + intros q c ok [].
        + intros path ok [[]|[]].
      - intros e w1 Hext _ _ _ Hs _. eexists. split_and!; [exact Hs| |].
        + intros q c ok [E|[]]; discriminate E.
        + intros path ok [[E|[]]|[E|[]]]; try discriminate E.
          injection E as <- _. auto.
      - intros text msg w1 Hext _ _ _ _ _ Hs. eexists.
        split_and!; [exact Hs| |].
        + intros q c ok [E|[]]; discriminate E.
        + intros path ok [[E|[]]|[E|[]]]; try discriminate E.
          injection E as <- _. auto.
      - intros text cleaned e w1 Hext _ _ Hc _ _ _ Hs. eexists.
        split_and!; [exact Hs| |].
        + intros q c ok [E|[E|[]]]; try discriminate E.
          injection E as <- <- _.
          split_and!; auto. apply (clean_persian_text_ok text), Hc.
        + intros path ok [[E|[E|[]]]|[E|[E|[]]]]; try discriminate E.
          injection E as <- _. auto.
      - intros text cleaned n e w1 Hext _ _ Hc _ _ _ Hs. eexists.
        split_and!; [exact Hs| |].
        + intros q c ok [E|[E|[]]]; try discriminate E.
          injection E as <- <- _.
          split_and!; auto. apply (clean_persian_text_ok text), Hc.
        + intros path ok [[E|[E|[]]]|[E|[E|[]]]]; try discriminate E.
          injection E as <- _. auto.
      - intros text cleaned w1 Hext _ _ Hc _ _ _ _ Hs _. eexists.
        split_and!; [exact Hs| |].
        + intros q c ok [E|[E|[E|[]]]]; try discriminate E.
          injection E as <- <- _.
          split_and!; auto. apply (clean_persian_text_ok text), Hc.
        + intros path ok [[E|[E|[E|[]]]]|[E|[E|[E|[]]]]]; try discriminate E;
            injection E as <- _; auto.
      - intros text cleaned e w1 Hext _ _ Hc _ _ _ _ Hs _. eexists.
        split_and!; [exact Hs| |].
        + intros q c ok [E|[E|[E|[]]]]; try discriminate E.
          injection E as <- <- _.
          split_and!; auto. apply (clean_persian_text_ok text), Hc.
        + intros path ok [[E|[E|[E|[]]]]|[E|[E|[E|[]]]]]; try discriminate E;
            injection E as <- _; auto. }
    destruct Hturn as (tr1 & Hs1 & Hw1 & Hr1).
    destruct r1 as [acc1|e].
    + destruct (IH _ _ Hrest) as (tr2 & Hs2 & Hw2 & Hr2).
      exists (tr1 ++ tr2). split_and!.
      * rewrite Hs2, Hs1, app_assoc. reflexivity.
      * intros q c ok [Hin|Hin]%in_app_or.
        -- destruct (Hw1 _ _ _ Hin) as (Hok & Hext & ->).
           split; [exact Hok|]. exists f. split_and!; first [reflexivity | assumption | (left; reflexivity) | (right; assumption)].
        -- destruct (Hw2 _ _ _ Hin) as (Hok & g & Hg & Hext & ->).
           split; [exact Hok|]. exists g. split_and!; first [reflexivity | assumption | (left; reflexivity) | (right; assumption)].
      * intros path ok Hin.
        assert (Hcase : (In (EvRead path ok) tr1 \/ In (EvRemove path ok) tr1) \/
                        (In (EvRead path ok) tr2 \/ In (EvRemove path ok) tr2)).
        { destruct Hin as [Hin|Hin]; apply in_app_or in Hin as [Hin|Hin]; auto. }
        destruct Hcase as [Hin1|Hin2].
        -- destruct (Hr1 _ _ Hin1) as (Hext & ->).
           exists f. split_and!; first [reflexivity | assumption | (left; reflexivity) | (right; assumption)].
        -- destruct (Hr2 _ _ Hin2) as (g & Hg & Hext & ->).
           exists g. split_and!; first [reflexivity | assumption | (left; reflexivity) | (right; assumption)].
    + injection Hrest as <- <-. exists tr1. split_and!.
      * exact Hs1.
      * intros q c ok Hin. destruct (Hw1 _ _ _ Hin) as (Hok & Hext & ->).
        split; [exact Hok|]. exists f. split_and!; first [reflexivity | assumption | (left; reflexivity) | (right; assumption)].
      * intros path ok Hin. destruct (Hr1 _ _ Hin) as (Hext & ->).
        exists f. split_and!; first [reflexivity | assumption | (left; reflexivity) | (right; assumption)].
Qed.
End Stages.

(** ** Directory entries *)

Section Entries.
Import Text IO Script.
Context {H : Host}.

Lemma startswith_split p s :
  startswith p s = true -> s = p ++ drop (length p) s.
Proof.
  revert s; induction p as [|a p IH]; intros s; simpl; [reflexivity|].
  destruct s as [|b s]; [discriminate|].
  intros [Hab Hs]%andb_prop. apply Z.eqb_eq in Hab as ->.
  simpl. f_equal. apply IH, Hs.
Qed.

Lemma startswith_app p a b :
  startswith p a = true -> startswith p (a ++ b) = true.
Proof.
  revert a; induction p as [|x p IH]; intros a; simpl; [reflexivity|].
  destruct a as [|y a]; [discriminate|]. simpl.
  intros [Hxy Ha]%andb_prop. rewrite Hxy. simpl. apply IH, Ha.
Qed.

Lemma startswith_self p s : startswith p (p ++ s) = true.
Proof.
  induction p as [|a p IH]; simpl; [reflexivity|].
  rewrite Z.eqb_refl. exact IH.
Qed.

Lemma endswith_app suffix pre s :
  endswith suffix s = true -> endswith suffix (pre ++ s) = true.
Proof.
  unfold endswith. rewrite rev_app_distr. apply startswith_app.
Qed.

Lemma entry_in_name dir path name :
  entry_in dir path = Some name ->
  (exists pre, path = pre ++ name) /\
  name <> [] /\ forallb (fun c => negb (c =? SLASH)) name = true.
Proof.
  unfold entry_in.
  set (prefix := if endswith [SLASH] dir then dir else dir ++ [SLASH]).
  destruct (startswith prefix path) eqn:Hp; [|discriminate].
  destruct (drop (length prefix) path) as [|c rest] eqn:Hd; [discriminate|].
  destruct (forallb _ (c :: rest)) eqn:Hs; [|discriminate].
  intros [= <-]. split_and!; [|discriminate|exact Hs].
  exists prefix. rewrite <- Hd. apply startswith_split, Hp.
Qed.

Lemma no_slash_head name :
  forallb (fun c => negb (c =? SLASH)) name = true ->
  startswith [SLASH] name = false.
Proof.
  destruct name as [|c name]; [reflexivity|].
  cbn [forallb startswith]. intros [Hc _]%andb_prop.
  rewrite andb_true_r, Z.eqb_sym.
  destruct (c =? SLASH); [discriminate Hc|reflexivity].
Qed.

Lemma entry_no_leading_slash dir path name :
  entry_in dir path = Some name -> startswith [SLASH] name = false.
Proof. intros (_ & _ & Hs)%entry_in_name. apply no_slash_head, Hs. Qed.

Lemma output_folder_not_txt : endswith (lit ".txt") output_folder = false.
Proof.
  unfold output_folder, os_path_join, endswith. simpl.
  destruct (_ || _); rewrite ?app_assoc, rev_app_distr; reflexivity.
Qed.

Lemma dir_entries_slash_free dir w f :
  In f (dir_entries dir w) -> startswith [SLASH] f = false.
Proof.
  unfold dir_entries. intros [Hin|Hin]%in_app_or;
    apply list_elem_of_In, list_elem_of_omap in Hin as (k & _ & E);
    exact (entry_no_leading_slash _ _ _ E).
Qed.

Lemma dir_entries_after_makedirs dir (w w0 : World) f :
  files w0 = files w ->
  dirs w0 = dirs w \/ dirs w0 = {[output_folder]} ∪ dirs w ->
  In f (dir_entries dir w0) -> endswith (lit ".txt") f = true ->
  In f (dir_entries dir w).
Proof.
  intros Hf Hd. unfold dir_entries. rewrite Hf.
  intros [Hin|Hin]%in_app_or Hext; apply in_or_app; [left; exact Hin|right].
  destruct Hd as [Hd|Hd]; rewrite Hd in Hin; [exact Hin|]. clear Hd.
  apply list_elem_of_In, list_elem_of_omap in Hin as (d & Hd & E).
  apply list_elem_of_In, list_elem_of_omap. exists d. split; [|exact E].
  apply elem_of_elements in Hd. apply elem_of_elements.
  apply elem_of_union in Hd as [Hd|Hd]; [|exact Hd].
  apply elem_of_singleton in Hd as ->. exfalso.
  destruct (entry_in_name _ _ _ E) as ([pre Hpre] & _).
  pose proof output_folder_not_txt as Hno.
  rewrite Hpre, (endswith_app _ pre f Hext) in Hno. discriminate Hno.
Qed.

Lemma input_path_inj f g :
  startswith [SLASH] f = false -> startswith [SLASH] g = false ->
  input_path_of f = input_path_of g -> f = g.
Proof.
  unfold input_path_of, os_path_join. intros -> ->.
  destruct (_ || _); intros E.
  - apply app_inv_head in E. exact E.
  - apply app_inv_head in E. injection E. auto.
Qed.

Lemma entry_in_join root name :
  root <> [] -> name <> [] ->
  forallb (fun c => negb (c =? SLASH)) name = true ->
  entry_in root (os_path_join root name) = Some name.
Proof.
  intros Hroot Hne Hs.
  pose proof (no_slash_head _ Hs) as Hlead.
  unfold entry_in, os_path_join. rewrite Hlead.
  destruct root as [|r root]; [destruct (Hroot eq_refl)|]. simpl orb.
  destruct (endswith [SLASH] (r :: root)).
  - rewrite startswith_self, drop_app_length.
    destruct name; [destruct (Hne eq_refl)|]. rewrite Hs. reflexivity.
  - rewrite app_assoc, startswith_self, drop_app_length.
    destruct name; [destruct (Hne eq_refl)|]. rewrite Hs. reflexivity.
Qed.

Lemma file_is_listed root name (w : World) :
  root <> [] -> name <> [] ->
  forallb (fun c => negb (c =? SLASH)) name = true ->
  is_Some (files w !! os_path_join root name) ->
  In name (dir_entries root w).
Proof.
  intros Hroot Hne Hs [t Ht]. unfold dir_entries. apply in_or_app; left.
  apply list_elem_of_In, list_elem_of_omap.
  exists (os_path_join root name). split; [|apply entry_in_join; assumption].
  apply list_elem_of_fmap. exists (os_path_join root name, t).
  split; [reflexivity|]. apply elem_of_map_to_list, Ht.
Qed.
End Entries.

(** ** What a run touches *)

Section RunScope.
Import Text IO Script.
Context {P : Platform} {H : Host}.

Lemma save_list_tail processed w r w' :
  save_list processed w = (r, w') ->
  exists tail,
    syslog w' = syslog w ++ tail /\ dirs w' = dirs w /\
    forall ev, In ev tail ->
      exists c ok, ev = EvWrite processed_list_file c ok.
Proof.
  intros Hs. destruct (save_list_run _ _ _ _ Hs) as [Hd Hrest].
  destruct processed as [|f rest].
  - destruct Hrest as (_ & Hlog & _). exists []. rewrite app_nil_r.
    split_and!; auto. intros ev [].
  - destruct Hrest as (ok & Hlog & _). eexists. split_and!; [exact Hlog|exact Hd|].
    intros ev [<-|[]]. eauto.
Qed.

(** What a run reads, writes and removes. *)
Lemma main_scope w r w' :
  main w = (r, w') ->
  exists tr,
    syslog w' = syslog w ++ tr /\
    (forall q c ok, In (EvWrite q c ok) tr ->
       q = processed_list_file \/
       (Normalizer.cleaned_text_ok c = true /\
        exists f, In f (dir_entries input_folder w) /\
                  endswith (lit ".txt") f = true /\ q = output_path_of f)) /\
    (forall path ok, In (EvRead path ok) tr \/ In (EvRemove path ok) tr ->
       exists f, In f (dir_entries input_folder w) /\
                 endswith (lit ".txt") f = true /\ path = input_path_of f).
Proof.
  revert r w'. apply main_stages.
  - intros e _ _. exists [EvMakedirs output_folder false]. split_and!.
    + reflexivity.
    + intros q c ok [E|[]]; discriminate E.
    + intros path ok [[E|[]]|[E|[]]]; discriminate E.
  - intros w0 rl w1 r w' Hstage Hloop Hrest.
    destruct (main_loop_scope _ _ _ _ _ Hloop) as (tr & Hs1 & Hw & Hr).
    assert (Hsetup : exists setup,
              syslog (log (EvListdir input_folder) w0) = syslog w ++ setup /\
              (forall ev, In ev setup ->
                 ev = EvListdir input_folder \/
                 ev = EvMakedirs output_folder true) /\
              files w0 = files w /\
              (dirs w0 = dirs w \/ dirs w0 = {[output_folder]} ∪ dirs w)).
    { destruct Hstage as [[_ ->]|(_ & _ & ->)].
      - exists [EvListdir input_folder]. split_and!; auto.
        intros ev [<-|[]]; auto.
      - exists [EvMakedirs output_folder true; EvListdir input_folder].
        split_and!; auto.
        + simpl. rewrite <- app_assoc. reflexivity.
        + intros ev [<-|[<-|[]]]; auto. }
    destruct Hsetup as (setup & Hs0 & Hset & Hf0 & Hd0).
    assert (Hlisted : forall f, In f (dir_entries input_folder w0) ->
              endswith (lit ".txt") f = true ->
              In f (dir_entries input_folder w)).
    { intros f. apply dir_entries_after_makedirs; assumption. }
    assert (Htail : exists tail,
              syslog w' = syslog w1 ++ tail /\
              forall ev, In ev tail ->
                exists c ok, ev = EvWrite processed_list_file c ok).
    { destruct rl as [processed|e].
      - destruct (save_list_tail _ _ _ _ Hrest) as (tail & Ht & _ & Hev).
        exists tail. auto.
      - destruct Hrest as [_ ->]. exists []. rewrite app_nil_r.
        split; [reflexivity|]. intros ev []. }
    destruct Htail as (tail & Hs2 & Htl).
    exists (setup ++ tr ++ tail). split_and!.
    + rewrite Hs2, Hs1, Hs0, <- !app_assoc. reflexivity.
    + intros q c ok [Hin|[Hin|Hin]%in_app_or]%in_app_or.
      * destruct (Hset _ Hin) as [E|E]; discriminate E.
      * right. destruct (Hw _ _ _ Hin) as (Hok & f & Hf & Hext & ->).
        split; [exact Hok|]. exists f. auto.
      * left. destruct (Htl _ Hin) as (c' & ok' & E). injection E as -> _ _.
        reflexivity.
    + intros path ok Hin.
      assert (Hin' : In (EvRead path ok) tr \/ In (EvRemove path ok) tr).
      { destruct Hin as [Hin|Hin];
          apply in_app_or in Hin as [Hin|Hin];
          try (destruct (Hset _ Hin) as [E|E]; discriminate E);
          apply in_app_or in Hin as [Hin|Hin]; auto;
          destruct (Htl _ Hin) as (c' & ok' & E); discriminate E. }
      destruct (Hr _ _ Hin') as (f & Hf & Hext & ->). exists f. auto.
Qed.

Lemma script_scope w r w' :
  script w = (r, w') ->
  exists tr,
    syslog w' = syslog w ++ tr /\
    (forall q c ok, In (EvWrite q c ok) tr ->
       q = processed_list_file \/
       (Normalizer.cleaned_text_ok c = true /\
        exists f, In f (dir_entries input_folder w) /\
                  endswith (lit ".txt") f = true /\ q = output_path_of f)) /\
    (forall path ok, In (EvRead path ok) tr \/ In (EvRemove path ok) tr ->
       exists f, In f (dir_entries input_folder w) /\
                 endswith (lit ".txt") f = true /\ path = input_path_of f).
Proof.
  unfold script. destruct pipeline_ready; [apply main_scope|].
  intros [= <- <-]. exists []. rewrite app_nil_r. split_and!.
  - reflexivity.
  - intros q c ok [].
  - intros path ok [[]|[]].
Qed.

(** X5. In every run, whatever is written to the output path of an
    entry, completely or not, is a text that passes the CleanedText
    check. *)
Theorem outputs_hold_cleaned_text (w : World) (r : result unit) (w' : World) :
  script w = (r, w') ->
  exists tr,
    syslog w' = syslog w ++ tr /\
    forall filename content ok,
      In (EvWrite (output_path_of filename) content ok) tr ->
      Normalizer.cleaned_text_ok content = true.
Proof.
  intros Hrun. destruct (script_scope _ _ _ Hrun) as (tr & Hs & Hw & _).
  exists tr. split; [exact Hs|]. intros f c ok Hin.
  destruct (Hw _ _ _ Hin) as [E|[Hok _]]; [|exact Hok].
  destruct (output_not_list_file f E).
Qed.

(** X6. A run reads and removes nothing but the sources of the [.txt]
    entries that the input folder held when the run began, and writes
    nothing but their outputs and the list file; any file that is gone
    after the run is such a source. *)
Theorem only_txt_entries_are_touched (w : World) (r : result unit) (w' : World) :
  script w = (r, w') ->
  exists tr,
    syslog w' = syslog w ++ tr /\
    (forall path ok, In (EvRead path ok) tr \/ In (EvRemove path ok) tr ->
       exists filename,
         In filename (dir_entries input_folder w) /\
         endswith (lit ".txt") filename = true /\
         path = input_path_of filename) /\
    (forall path content ok, In (EvWrite path content ok) tr ->
       path = processed_list_file \/
       exists filename,
         In filename (dir_entries input_folder w) /\
         endswith (lit ".txt") filename = true /\
         path = output_path_of filename) /\
    (forall path, is_Some (files w !! path) -> files w' !! path = None ->
       exists filename,
         In filename (dir_entries input_folder w) /\
         endswith (lit ".txt") filename = true /\
         path = input_path_of filename).
Proof.
  intros Hrun. destruct (script_scope _ _ _ Hrun) as (tr & Hs & Hw & Hr).
  exists tr. split_and!; [exact Hs|exact Hr| |].
  - intros q c ok Hin. destruct (Hw _ _ _ Hin) as [E|[_ Hf]]; auto.
  - intros path Hp Hn.
    destruct (script_run _ _ _ Hrun)
      as (setup & ltr & tail & Hs' & _ & _ & _ & Hl & _).
    rewrite Hs in Hs'. apply app_inv_head in Hs'.
    apply (Hr path true). right. rewrite Hs'.
    apply in_or_app; right; apply in_or_app; left. exact (Hl _ Hp Hn).
Qed.
End RunScope.

(** ** Single turns and single files *)

Section Turns.
Import Text IO Script.
Context {P : Platform} {H : Host}.

(** X7. A turn on which nothing fails: the output holds the cleaned form
    of the text read, the source is gone, no other file and no directory
    changes, the three system calls are the read, the write and the
    removal, and the name is appended to the list of processed files. *)
Theorem successful_turn (filename : str) (processed_files : list str)
    (w : World) (text cleaned : str) :
  endswith (lit ".txt") filename = true ->
  read_fault (input_path_of filename) = None ->
  files w !! input_path_of filename = Some text ->
  Normalizer.clean_persian_text text = Some cleaned ->
  write_fault (output_path_of filename) = WriteDone ->
  remove_fault (input_path_of filename) = None ->
  exists w',
    loop_body filename processed_files w
    = (Ret (processed_files ++ [filename]), w') /\
    files w' !! output_path_of filename = Some cleaned /\
    files w' !! input_path_of filename = None /\
    (forall path, path <> input_path_of filename ->
       path <> output_path_of filename -> files w' !! path = files w !! path) /\
    dirs w' = dirs w /\
    syslog w' = syslog w ++ [EvRead (input_path_of filename) true;
                             EvWrite (output_path_of filename) cleaned true;
                             EvRemove (input_path_of filename) true] /\
    console w' = console w
                 ++ processed_message (input_path_of filename)
                      (output_path_of filename)
                    :: report_lines text cleaned
                 ++ [separator; deleted_message filename].
Proof.
  intros Hext Hrf Hp Hc Hwf Hrm.
  destruct (loop_body filename processed_files w) as [r w'] eqn:Hb.
  revert r w' Hb. apply loop_body_cases.
  - intros E. rewrite E in Hext. discriminate Hext.
  - intros e w' _ Hr. unfold read_file in Hr. rewrite Hrf, Hp in Hr.
    discriminate Hr.
  - intros text' msg w' _ _ Hp' Hc'. rewrite Hp in Hp'. injection Hp' as <-.
    rewrite Hc in Hc'. discriminate Hc'.
  - intros text' cleaned' e w' _ _ _ _ Hw. rewrite Hwf in Hw. discriminate Hw.
  - intros text' cleaned' n e w' _ _ _ _ Hw. rewrite Hwf in Hw. discriminate Hw.
  - intros text' cleaned' w' _ _ Hp' Hc' _ _ Hf Hd Hs Hcon.
    rewrite Hp in Hp'. injection Hp' as <-.
    rewrite Hc in Hc'. injection Hc' as <-.
    exists w'. split_and!.
    + reflexivity.
    + rewrite Hf, lookup_delete_ne by apply input_output_distinct.
      apply lookup_insert_eq.
    + rewrite Hf. apply lookup_delete_eq.
    + intros path N1 N2. rewrite Hf.
      rewrite lookup_delete_ne by (intros E; exact (N1 (eq_sym E))).
      apply lookup_insert_ne. intros E; exact (N2 (eq_sym E)).
    + exact Hd.
    + exact Hs.
    + rewrite Hcon. simpl. rewrite <- !app_assoc. reflexivity.
  - intros text' cleaned' e w' _ _ _ _ _ Hr. rewrite Hrm in Hr. discriminate Hr.
Qed.

(** X12. What the result of [process_file] tells: [True], the input was
    read and the output now holds its cleaned form; [False], the read
    failed and no file changed; an exception, the input was read and
    either the tokenizer failed with no file changed, or the write failed
    with no file but the output changed. *)
Theorem process_file_outcome (input_path output_path : str) (w : World)
    (r : result bool) (w' : World) :
  process_file input_path output_path w = (r, w') ->
  dirs w' = dirs w /\
  match r with
  | Ret true =>
      exists text cleaned,
        read_fault input_path = None /\
        files w !! input_path = Some text /\
        Normalizer.clean_persian_text text = Some cleaned /\
        files w' = <[output_path := cleaned]> (files w) /\
        syslog w' = syslog w ++ [EvRead input_path true;
                                 EvWrite output_path cleaned true] /\
        console w' = console w
                     ++ processed_message input_path output_path
                        :: report_lines text cleaned ++ [separator]
  | Ret false =>
      (is_Some (read_fault input_path) \/ files w !! input_path = None) /\
      files w' = files w /\
      syslog w' = syslog w ++ [EvRead input_path false] /\
      exists e, console w' = console w ++ [read_error_message input_path e]
  | Raise e =>
      exists text,
        files w !! input_path = Some text /\
        console w' = console w /\
        ((Normalizer.clean_persian_text text = None /\
          files w' = files w /\
          syslog w' = syslog w ++ [EvRead input_path true]) \/
         (exists cleaned,
            Normalizer.clean_persian_text text = Some cleaned /\
            write_fault output_path <> WriteDone /\
            (forall path, path <> output_path ->
               files w' !! path = files w !! path) /\
            syslog w' = syslog w ++ [EvRead input_path true;
                                     EvWrite output_path cleaned false]))
  end.
Proof.
  rewrite process_file_eq. unfold read_file, write_file.
  destruct (read_fault input_path) as [e|] eqn:Hrf.
  { intros [= <- <-]. split; [reflexivity|]. split_and!; eauto. }
  destruct (files w !! input_path) as [text|] eqn:Hp.
  2:{ intros [= <- <-]. split; [reflexivity|]. split_and!; eauto. }
  destruct (Normalizer.clean_persian_text text) as [cleaned|] eqn:Hc.
  2:{ intros [= <- <-]. split; [reflexivity|]. exists text.
      split_and!; auto. }
  destruct (write_fault output_path) as [|e|n e] eqn:Hwf;
    intros [= <- <-]; (split; [reflexivity|]).
  - exists text, cleaned.
    split_and!; try reflexivity; try assumption.
    cbn. symmetry. apply (List.app_assoc _ [_] [_]).
  - exists text. split_and!; try reflexivity. right. exists cleaned.
    split_and!; try reflexivity; try assumption; try discriminate.
    cbn. symmetry. apply (List.app_assoc _ [_] [_]).
  - exists text. split_and!; try reflexivity. right. exists cleaned.
    split_and!; try reflexivity; try assumption; try discriminate.
    + intros path N. simpl. apply lookup_insert_ne.
      intros E; exact (N (eq_sym E)).
    + cbn. symmetry. apply (List.app_assoc _ [_] [_]).
Qed.
End Turns.

(** ** The output folder and runs with nothing to do *)

Section Folder.
Import Text IO Script.
Context {P : Platform} {H : Host}.

Lemma loop_event_no_makedirs tr p ok :
  List.Forall loop_event tr -> ~ In (EvMakedirs p ok) tr.
Proof.
  intros Hall Hin. rewrite List.Forall_forall in Hall. exact (Hall _ Hin).
Qed.

(** X8. For an entry name without a slash, the source path is the output
    path of no entry; no output path is the path of the list file; and
    two entries with the same output path are the same entry. *)
Theorem paths_never_collide (f g : str) :
  forallb (fun c => negb (c =? SLASH)) f = true ->
  input_path_of f <> output_path_of g /\
  output_path_of g <> processed_list_file /\
  (output_path_of f = output_path_of g -> f = g).
Proof.
  intros Hs. split_and!.
  - pose proof (no_slash_head _ Hs) as Hlead.
    unfold input_path_of, output_path_of, output_folder, input_folder,
      os_path_join.
    rewrite Hlead. simpl startswith. cbv iota.
    destruct (match project_root with [] => true | _ => false end
              || endswith [SLASH] project_root) eqn:Hroot.
    + assert (E0 : (match project_root ++ lit "editedbooktext" with
                    | [] => true | _ => false end
                    || endswith [SLASH] (project_root ++ lit "editedbooktext"))
                   = false).
      { destruct project_root; [reflexivity|].
        unfold endswith. rewrite rev_app_distr. reflexivity. }
      rewrite E0. rewrite <- !app_assoc. intros E. apply app_inv_head in E.
      rewrite E in Hs. discriminate Hs.
    + assert (E0 : (match project_root ++ [SLASH] ++ lit "editedbooktext" with
                    | [] => true | _ => false end
                    || endswith [SLASH]
                         (project_root ++ [SLASH] ++ lit "editedbooktext"))
                   = false).
      { destruct project_root; [reflexivity|].
        unfold endswith. rewrite !rev_app_distr. reflexivity. }
      rewrite E0. rewrite <- !app_assoc. intros E. apply app_inv_head in E.
      injection E as E. rewrite E in Hs. discriminate Hs.
  - apply output_not_list_file.
  - apply output_path_inj.
Qed.

(** X9. [main] creates the output folder exactly when nothing exists at
    its path, as its first system call; when something exists there no
    directory is created; when the creation fails the run ends there with
    no file changed. *)
Theorem output_folder_made_when_missing (w : World) (r : result unit)
    (w' : World) :
  main w = (r, w') ->
  exists tr,
    syslog w' = syslog w ++ tr /\
    (is_Some (files w !! output_folder) \/ output_folder ∈ dirs w ->
     (forall p ok, ~ In (EvMakedirs p ok) tr) /\ dirs w' = dirs w) /\
    (~ (is_Some (files w !! output_folder) \/ output_folder ∈ dirs w) ->
     exists ok rest,
       tr = EvMakedirs output_folder ok :: rest /\
       (forall p ok', ~ In (EvMakedirs p ok') rest) /\
       if ok then dirs w' = {[output_folder]} ∪ dirs w
       else rest = [] /\ files w' = files w /\ dirs w' = dirs w /\
            exists e, r = Raise e).
Proof.
  revert r w'. apply main_stages.
  - intros e Habsent _. exists [EvMakedirs output_folder false]. split_and!.
    + reflexivity.
    + intros Hp. destruct (Habsent Hp).
    + intros _. exists false, [].
      split_and!; first [reflexivity | (intros p ok []) | eauto].
  - intros w0 rl w1 r w' Hstage Hloop Hrest.
    destruct (main_loop_run _ _ _ _ _ Hloop) as (tr & Hs1 & Hd1 & He1 & _).
    assert (Htail : exists tail,
              syslog w' = syslog w1 ++ tail /\ dirs w' = dirs w1 /\
              forall ev, In ev tail ->
                exists c ok, ev = EvWrite processed_list_file c ok).
    { destruct rl as [processed|e].
      - apply save_list_tail with (1 := Hrest).
      - destruct Hrest as [_ ->]. exists []. rewrite app_nil_r.
        split_and!; auto. intros ev []. }
    destruct Htail as (tail & Hs2 & Hd2 & Htl).
    assert (Hquiet : forall p ok, ~ In (EvMakedirs p ok)
                                     (EvListdir input_folder :: tr ++ tail)).
    { intros p ok [E|[Hin|Hin]%in_app_or]; [discriminate E| |].
      - exact (loop_event_no_makedirs _ _ _ He1 Hin).
      - destruct (Htl _ Hin) as (c & ok' & E). discriminate E. }
    destruct Hstage as [[Hpresent ->]|(Habsent & _ & ->)].
    + exists (EvListdir input_folder :: tr ++ tail). split_and!.
      * rewrite Hs2, Hs1. simpl. rewrite <- !app_assoc. reflexivity.
      * intros _. split; [exact Hquiet|]. rewrite Hd2, Hd1. reflexivity.
      * intros Habsent. destruct (Habsent Hpresent).
    + exists (EvMakedirs output_folder true
              :: EvListdir input_folder :: tr ++ tail). split_and!.
      * rewrite Hs2, Hs1. simpl. rewrite <- !app_assoc. reflexivity.
      * intros Hp. destruct (Habsent Hp).
      * intros _. eexists true, _. split_and!; [reflexivity|exact Hquiet|].
        rewrite Hd2, Hd1. reflexivity.
Qed.

(** X10. When no entry of the input folder ends in [.txt], [main] returns
    normally after listing the folder: no file is read, written or
    removed, the list file is not written, and the last line printed says
    that no files were processed. *)
Theorem nothing_to_process (w : World) :
  (forall f, In f (dir_entries input_folder w) ->
     endswith (lit ".txt") f = false) ->
  makedirs_fault output_folder = None ->
  exists w',
    main w = (Ret tt, w') /\
    files w' = files w /\
    console w' = console w ++ [no_files_message] /\
    (syslog w' = syslog w ++ [EvListdir input_folder] \/
     syslog w' = syslog w ++ [EvMakedirs output_folder true;
                              EvListdir input_folder]).
Proof.
  intros Hnone Hmk. destruct (main w) as [r w'] eqn:Hm. revert r w' Hm.
  apply main_stages.
  - intros e _ Hf. rewrite Hmk in Hf. discriminate Hf.
  - intros w0 rl w1 r w' Hstage Hloop Hrest.
    assert (Hw0 : files w0 = files w /\ console w0 = console w /\
                  (dirs w0 = dirs w \/ dirs w0 = {[output_folder]} ∪ dirs w) /\
                  (syslog (log (EvListdir input_folder) w0)
                   = syslog w ++ [EvListdir input_folder] \/
                   syslog (log (EvListdir input_folder) w0)
                   = syslog w ++ [EvMakedirs output_folder true;
                                  EvListdir input_folder])).
    { destruct Hstage as [[_ ->]|(_ & _ & ->)]; split_and!; auto.
      right. simpl. rewrite <- app_assoc. reflexivity. }
    destruct Hw0 as (Hf0 & Hc0 & Hd0 & Hs0).
    rewrite main_loop_skips in Hloop.
    + injection Hloop as <- <-. simpl in Hrest. injection Hrest as <- <-.
      exists (put_lines [no_files_message] (log (EvListdir input_folder) w0)).
      split_and!; [reflexivity|exact Hf0| |exact Hs0].
      simpl. rewrite Hc0. reflexivity.
    + intros f Hf. destruct (endswith (lit ".txt") f) eqn:Hext; [|reflexivity].
      rewrite <- (Hnone f); [symmetry; exact Hext|].
      exact (dir_entries_after_makedirs _ _ _ _ Hf0 Hd0 Hf Hext).
Qed.
End Folder.

(** ** The list file as an entry *)

Section Taken.
Import Text IO Script.
Context {P : Platform} {H : Host}.
Hypothesis nlp_total : forall text, is_Some (nlp text).
Hypothesis writes_succeed : forall path, write_fault path = WriteDone.

(** A readable [.txt] entry that is in place when the loop starts ends up
    in the list of processed files. *)
Lemma main_loop_takes f names acc w final w' :
  read_fault (input_path_of f) = None ->
  endswith (lit ".txt") f = true ->
  startswith [SLASH] f = false ->
  (forall g, In g names -> startswith [SLASH] g = false) ->
  In f names ->
  is_Some (files w !! input_path_of f) ->
  main_loop names acc w = (Ret final, w') ->
  In f final.
Proof.
  intros Hrf Hext Hlead. revert acc w.
  induction names as [|g rest IH]; intros acc w Hfree Hin Hp; [destruct Hin|].
  simpl. unfold bind.
  destruct (loop_body g acc w) as [r1 w1] eqn:Hb.
  destruct (decide (g = f)) as [->|Hne].
  - assert (Hr : r1 = Ret (acc ++ [f])).
    { revert r1 w1 Hb. apply loop_body_cases.
      - intros E. rewrite E in Hext. discriminate Hext.
      - intros e w1 _ Hr. unfold read_file in Hr. rewrite Hrf in Hr.
        destruct Hp as [t Ht].
        assert (Ht' : (files w !! input_path_of f : option str) = Some t)
          by exact Ht.
        rewrite Ht' in Hr. discriminate Hr.
      - intros text msg w1 _ _ _ Hc.
        destruct (clean_total nlp_total _ Hc).
      - intros text cleaned e w1 _ _ _ _ Hw. rewrite writes_succeed in Hw.
        discriminate Hw.
      - intros text cleaned n e w1 _ _ _ _ Hw. rewrite writes_succeed in Hw.
        discriminate Hw.
      - reflexivity.
      - reflexivity. }
    subst r1. intros Hrest.
    destruct (main_loop_run _ _ _ _ _ Hrest) as (tr & _ & _ & _ & _ & _ & _ & Hfin).
    destruct (Hfin _ eq_refl) as (more & -> & _).
    apply in_or_app; left. apply in_or_app; right. left; reflexivity.
  - assert (Hkeep : is_Some (files w1 !! input_path_of f)).
    { revert r1 w1 Hb. apply loop_body_cases.
      - intros _. exact Hp.
      - intros e w1 _ _ Hf _ _ _. rewrite Hf. exact Hp.
      - intros text msg w1 _ _ _ _ Hf _ _. rewrite Hf. exact Hp.
      - intros text cleaned e w1 _ _ _ _ _ Hf _ _. rewrite Hf. exact Hp.
      - intros text cleaned n e w1 _ _ _ _ _ Hf _ _. rewrite Hf.
        apply insert_keeps_presence, Hp.
      - intros text cleaned w1 _ _ _ _ _ _ Hf _ _ _. rewrite Hf.
        rewrite lookup_delete_ne; [apply insert_keeps_presence, Hp|].
        intros E. apply Hne. apply input_path_inj; auto.
        apply Hfree. left; reflexivity.
      - intros text cleaned e w1 _ _ _ _ _ _ Hf _ _ _. rewrite Hf.
        apply insert_keeps_presence, Hp. }
    destruct r1 as [acc1|e]; [|discriminate].
    apply IH; [|destruct Hin as [E|Hin]; [destruct (Hne E)|exact Hin]|exact Hkeep].
    intros g' Hg'. apply Hfree. right; exact Hg'.
Qed.

(** X11. The list file is itself a [.txt] entry of the input folder: a
    run that finds one (left by an earlier run) and meets no failure
    processes it like a book, an output is written for it in the output
    folder, and the new list file names it. *)
Theorem list_file_is_taken_as_input (w : World) :
  pipeline_ready = true ->
  project_root <> [] ->
  (forall path, makedirs_fault path = None) ->
  read_fault processed_list_file = None ->
  is_Some (files w !! processed_list_file) ->
  processed_list_file = input_path_of (lit "editedbook_list.txt") /\
  exists w' processed_files,
    script w = (Ret tt, w') /\
    In (lit "editedbook_list.txt") processed_files /\
    files w' !! processed_list_file = Some (manifest_text processed_files) /\
    exists content,
      In (EvWrite (output_path_of (lit "editedbook_list.txt")) content true)
         (syslog w').
Proof.
  intros Hready Hroot Hmk Hrf Hp. split; [reflexivity|].
  unfold script. rewrite Hready.
  destruct (main w) as [r w'] eqn:Hm. revert r w' Hm. apply main_stages.
  - intros e _ Hf. rewrite Hmk in Hf. discriminate Hf.
  - intros w0 rl w1 r w' Hstage Hloop Hrest.
    assert (Hf0 : files (log (EvListdir input_folder) w0) = files w).
    { destruct Hstage as [[_ ->]|(_ & _ & ->)]; reflexivity. }
    destruct (main_loop_contained nlp_total writes_succeed
                (dir_entries input_folder w0) []
                (log (EvListdir input_folder) w0))
      as (final & w1' & tr & lines & Hl & _).
    rewrite Hl in Hloop. injection Hloop as <- <-.
    assert (Hin : In (lit "editedbook_list.txt") final).
    { apply (main_loop_takes (lit "editedbook_list.txt")
               (dir_entries input_folder w0) []
               (log (EvListdir input_folder) w0) final w1'
               Hrf eq_refl eq_refl).
      - intros g. apply dir_entries_slash_free.
      - apply file_is_listed; [exact Hroot|discriminate|reflexivity|].
        change (files w0) with (files (log (EvListdir input_folder) w0)).
        rewrite Hf0. exact Hp.
      - rewrite Hf0. exact Hp.
      - exact Hl. }
    destruct (main_loop_run _ _ _ _ _ Hl)
      as (tr' & Hs1 & _ & _ & _ & _ & _ & Hfin).
    destruct (Hfin _ eq_refl) as (more & Hmore & Hwr & _). simpl in Hmore.
    subst more. destruct (Hwr _ Hin) as (_ & _ & c & Hc).
    destruct (save_list_run _ _ _ _ Hrest) as [_ Hsave].
    destruct final as [|f0 rest]; [destruct Hin|].
    destruct Hsave as (ok & Hs2 & _ & Hok & Hres).
    rewrite (Hok (writes_succeed _)) in Hres. destruct Hres as [-> Hfiles].
    exists w', (f0 :: rest). split_and!.
    + reflexivity.
    + exact Hin.
    + rewrite Hfiles. apply lookup_insert_eq.
    + exists c. rewrite Hs2, Hs1. apply in_or_app; left.
      apply in_or_app; right. exact Hc.
Qed.
End Taken.

(** ** The further properties on concrete runs *)

Section MoreRuns.
Import Text IO Script Demo.

Lemma clean_keeps_surviving_characters_witness :
  List.filter (fun c => negb (is_space c)) (lit "one twothree.")
  = lit "onetwothree." /\
  (length (lit "one twothree.") <= length (lit "one - two_three."))%nat.
Proof.
  destruct (@clean_keeps_surviving_characters sample_platform text_a
              (lit "one twothree.") [[lit "one"; lit "-"; lit "two_three."]])
    as [Hkeep Hlen].
  - vm_compute; reflexivity.
  - vm_compute; reflexivity.
  - split; [rewrite Hkeep; vm_compute; reflexivity | exact Hlen].
Defined.

Lemma clean_joins_surviving_words_witness :
  lit "one twothree."
  = join [SPACE] (split_from [] (lit "one  twothree.")).
Proof.
  apply (@clean_joins_surviving_words sample_platform text_a
           (lit "one twothree.") [[lit "one"; lit "-"; lit "two_three."]]);
    vm_compute; reflexivity.
Defined.

Lemma cleaned_side_is_one_line_witness :
  @diff_of sample_platform text_a (lit "one twothree.")
  = prefix_diff [text_a] [lit "one twothree."].
Proof.
  apply (@cleaned_side_is_one_line sample_platform text_a text_a
           (lit "one twothree.")).
  vm_compute; reflexivity.
Defined.

Lemma list_file_reads_back_witness :
  splitlines (manifest_text [lit "b.txt"; lit "a.txt"])
  = [lit "b.txt"; lit "a.txt"].
Proof.
  apply list_file_reads_back.
  intros name c [<-|[<-|[]]] Hc; simpl in Hc;
    repeat (destruct Hc as [<-|Hc]; [reflexivity|]); destruct Hc.
Defined.

Lemma outputs_hold_cleaned_text_witness :
  exists tr,
    syslog (snd (@script sample_platform calm_host two_books))
    = syslog two_books ++ tr /\
    (In (EvWrite (@output_path_of calm_host (lit "a.txt"))
           (lit "one twothree.") true) tr ->
     @Normalizer.cleaned_text_ok sample_platform (lit "one twothree.") = true).
Proof.
  destruct (@outputs_hold_cleaned_text sample_platform calm_host two_books
              (fst (@script sample_platform calm_host two_books))
              (snd (@script sample_platform calm_host two_books)))
    as (tr & Hs & Hok).
  - vm_compute; reflexivity.
  - exists tr. split; [exact Hs | apply Hok].
Defined.

Lemma only_txt_entries_are_touched_witness :
  exists tr,
    syslog (snd (@script sample_platform calm_host two_books))
    = syslog two_books ++ tr /\
    (In (EvRemove a_txt true) tr ->
     exists filename,
       In filename [lit "b.txt"; lit "a.txt"] /\
       endswith (lit ".txt") filename = true /\
       a_txt = @input_path_of calm_host filename).
Proof.
  destruct (@only_txt_entries_are_touched sample_platform calm_host two_books
              (fst (@script sample_platform calm_host two_books))
              (snd (@script sample_platform calm_host two_books)))
    as (tr & Hs & Hr & _).
  - vm_compute; reflexivity.
  - exists tr. split; [exact Hs|]. intros Hin.
    destruct (Hr a_txt true (or_intror Hin)) as (f & Hf & Hext & E).
    exists f. split_and!; [|exact Hext|exact E].
    replace [lit "b.txt"; lit "a.txt"]
      with (dir_entries (@input_folder calm_host) two_books)
      by (vm_compute; reflexivity).
    exact Hf.
Defined.

Lemma successful_turn_witness :
  exists w',
    @loop_body sample_platform calm_host (lit "a.txt") [] two_books
    = (Ret [lit "a.txt"], w') /\
    files w' !! edited_a_txt = Some (lit "one twothree.") /\
    files w' !! a_txt = None.
Proof.
  destruct (@successful_turn sample_platform calm_host (lit "a.txt") []
              two_books text_a (lit "one twothree."))
    as (w' & Hb & Hout & Hin & _); try (vm_compute; reflexivity).
  exists w'. split_and!; assumption.
Defined.

Lemma process_file_outcome_witness :
  exists text cleaned,
    files two_books !! a_txt = Some text /\
    @Normalizer.clean_persian_text sample_platform text = Some cleaned /\
    files (snd (@process_file sample_platform calm_host a_txt edited_a_txt
                  two_books))
    = <[edited_a_txt := cleaned]> (files two_books).
Proof.
  destruct (@process_file_outcome sample_platform calm_host a_txt edited_a_txt
              two_books (Ret true)
              (snd (@process_file sample_platform calm_host a_txt
                      edited_a_txt two_books)))
    as (_ & text & cleaned & _ & Hp & Hc & Hf & _).
  - vm_compute; reflexivity.
  - exists text, cleaned. split_and!; assumption.
Defined.

Lemma paths_never_collide_witness :
  a_txt <> edited_b_txt /\
  edited_b_txt <> lit "/books/editedbook_list.txt".
Proof.
  destruct (@paths_never_collide calm_host (lit "a.txt") (lit "b.txt"))
    as (H1 & H2 & _); [reflexivity|].
  split; [exact H1 | exact H2].
Defined.

Lemma output_folder_made_when_missing_witness :
  exists rest,
    syslog (snd (@main sample_platform calm_host two_books))
    = syslog two_books
      ++ EvMakedirs (lit "/books/editedbooktext") true :: rest /\
    dirs (snd (@main sample_platform calm_host two_books))
    = {[ lit "/books/editedbooktext" ]} ∪ dirs two_books.
Proof.
  destruct (@output_folder_made_when_missing sample_platform calm_host
              two_books
              (fst (@main sample_platform calm_host two_books))
              (snd (@main sample_platform calm_host two_books)))
    as (tr & Hs & _ & Hmissing).
  - vm_compute; reflexivity.
  - destruct Hmissing as (ok & rest & -> & _ & Hok).
    + assert (E : files two_books !! @output_folder calm_host = None)
        by (vm_compute; reflexivity).
      intros [[t Ht]|Hd]; [rewrite E in Ht; discriminate Ht|].
      unfold two_books in Hd. cbn [dirs] in Hd.
      apply elem_of_singleton in Hd. discriminate Hd.
    + destruct ok.
      * exists rest. split; [exact Hs | exact Hok].
      * exfalso. destruct Hok as (_ & _ & _ & e & He).
        assert (E : fst (@main sample_platform calm_host two_books) = Ret tt)
          by (vm_compute; reflexivity).
        rewrite E in He. discriminate He.
Defined.

Lemma nothing_to_process_witness :
  exists w',
    @main sample_platform calm_host no_books = (Ret tt, w') /\
    files w' = files no_books /\
    console w' = [lit "No files were processed."].
Proof.
  destruct (@nothing_to_process sample_platform calm_host no_books)
    as (w' & Hm & Hf & Hc & _).
  - assert (E : dir_entries (@input_folder calm_host) no_books
                = [lit "notes.md"; lit "editedbooktext"])
      by (vm_compute; reflexivity).
    intros f Hf. rewrite E in Hf.
    destruct Hf as [<-|[<-|[]]]; reflexivity.
  - reflexivity.
  - exists w'. split_and!; [exact Hm | exact Hf | exact Hc].
Defined.

Lemma list_file_is_taken_as_input_witness :
  exists w' processed_files,
    @script sample_platform calm_host after_a_run = (Ret tt, w') /\
    In (lit "editedbook_list.txt") processed_files /\
    files w' !! lit "/books/editedbook_list.txt"
    = Some (manifest_text processed_files).
Proof.
  destruct (@list_file_is_taken_as_input sample_platform calm_host
              whitespace_nlp_total (fun _ => eq_refl) after_a_run)
    as (_ & w' & pr & Hrun & Hin & Hf & _).
  - reflexivity.
  - discriminate.
  - intros path; reflexivity.
  - reflexivity.
  - exists (lit "b.txt" ++ [LF]). vm_compute; reflexivity.
  - exists w', pr. split_and!; assumption.
Defined.
End MoreRuns.
